(** * Shiptivity client board: the re-ranking handlers of [server.js]

    A shallow embedding of the Express handlers of the repository and the
    properties of its swimlane re-ranking.  The repository holds two
    revisions of the same server: [src/server.js] (module [ServerJs]) and
    [src/unnamed/part_000] (module [Part000]).  [validateId],
    [validatePriority], the GET handlers and the persistence loop
    [updateAllClients] are textually the same in both and are modelled
    once; the PUT handler differs and is modelled once per revision.

    Modelling conventions.
    - A row of the [clients] table is a record [client]; the table is the
      list of its rows in rowid order, which is what
      [select * from clients] yields.
    - [db.prepare(..).all()] builds one fresh object per row, so the array
      [clients] is at the same time the heap of client objects: a
      reference to a client object is its index in the array, reading a
      field is a list lookup and assigning a field is a list insert.
      [originalClient] is such a reference, so that the loops which
      assign [client.priority] while reading [originalClient.priority]
      see their own writes, as in the source.
    - Ranks are JavaScript numbers holding integers; they are modelled by
      [Z] (exact below 2^53).  The PUT body is modelled for the documented
      input type: [status] an optional string and [priority] an optional
      integer.  [validatePriority] itself is modelled on arbitrary
      JavaScript values.
    - A response goes out once, with the first [res.status(c).send(b)].
      A later [send] of an object or an array has the Content-Type header
      to set and raises ERR_HTTP_HEADERS_SENT; a later [send] of
      [undefined] sets no header and writes nothing.  [sent] lists what
      has gone out.  Requests are taken without conditional headers.
    - An error raised in a handler is caught by the framework after the
      handler has ended: what was written to the table before stays
      written. *)

From Stdlib Require Import ZArith Lia.
From stdpp Require Import base option list strings.


Open Scope Z_scope.

(** ** JavaScript values, as far as [validatePriority] inspects them *)

(** A double is NaN, an infinity or [m * 2^e]. *)
Inductive number :=
  | NaN
  | Infinity (negative : bool)
  | Finite (m e : Z).

Inductive value :=
  | Undefined
  | Null
  | Bool (b : bool)
  | Num (n : number)
  | Str (s : string)
  | Obj.

Definition of_int (z : Z) : value := Num (Finite z 0).

(** [Number.isNaN(v)]: true for the number NaN only, without coercion. *)
Definition Number_isNaN (v : value) : bool :=
  match v with
  | Num NaN => true
  | _ => false
  end.

(** ToBoolean. *)
Definition truthy (v : value) : bool :=
  match v with
  | Undefined | Null => false
  | Bool b => b
  | Num NaN => false
  | Num (Infinity _) => true
  | Num (Finite m _) => negb (m =? 0)
  | Str s => negb (String.eqb s "")
  | Obj => true
  end.

(** [a && b] yields [a] when [a] is falsy and [b] otherwise. *)
Definition js_and (a b : value) : value := if truthy a then b else a.

(** ** Rows, messages and responses *)

Record client := Client {
  id : Z;
  name : string;
  description : string;
  status : string;
  priority : Z
}.

Global Instance client_eq_dec : EqDecision client.
Proof. solve_decision. Defined.

Definition set_priority (c : client) (p : Z) : client :=
  Client (id c) (name c) (description c) (status c) p.

Record message := Message { message_text : string; long_message : string }.

Record validation := Validation { valid : bool; messageObj : option message }.

Inductive body :=
  | ErrorBody (m : option message)
  | ClientList (cs : list client)
  | OneClient (c : option client).

Record response := Response { code : Z; payload : body }.

(** What a handler did: the replies that went out, the table afterwards,
    and whether it ended by an error it did not catch. *)
Record outcome := Outcome {
  sent : list response;
  table : list client;
  threw : bool
}.

(** ** The validators *)

Definition id_not_integer : message :=
  Message "Invalid id provided." "Id can only be integer.".
Definition id_not_found : message :=
  Message "Invalid id provided." "Cannot find client with that id.".
Definition priority_invalid : message :=
  Message "Invalid priority provided." "Priority can only be positive integer.".
Definition status_invalid : message :=
  Message "Invalid status provided."
    "Status can only be one of the following: [backlog | in-progress | complete].".

(** [select * from clients where id = ? limit 1]; the parameter is the
    result of [parseInt], [None] standing for NaN, which matches no row. *)
Definition get_by_id (db : list client) (i : option Z) : option client :=
  match i with
  | None => None
  | Some z => snd <$> list_find (fun c => id c = z) db
  end.

Definition validateId (db : list client) (i : option Z) : validation :=
  match i with
  | None => Validation false (Some id_not_integer)
  | Some _ =>
      match get_by_id db i with
      | None => Validation false (Some id_not_found)
      | Some _ => Validation true None
      end
  end.

Definition validatePriority (p : value) : validation :=
  if truthy (js_and (Bool (Number_isNaN p)) p)
  then Validation false (Some priority_invalid)
  else Validation true None.

(** ** The response object *)

(** Whether [res.send(b)] has a header to set: an object or an array is
    sent as JSON with its Content-Type; [undefined] has none. *)
Definition sets_header (b : body) : bool :=
  match b with
  | ErrorBody (Some _) | ClientList _ | OneClient (Some _) => true
  | ErrorBody None | OneClient None => false
  end.

(** [res.status(c).send(b)] on a response of which [out] has gone out:
    the first call sends the reply; a later one raises when it has a
    header to set ([None]) and otherwise writes nothing. *)
Definition send (out : list response) (r : response) : option (list response) :=
  match out with
  | [] => Some [r]
  | _ :: _ => if sets_header (payload r) then None else Some out
  end.

(** The calls [rs] in order, up to the first that raises: what has gone
    out, and whether a call raised. *)
Fixpoint send_all (out rs : list response) : list response * bool :=
  match rs with
  | [] => (out, false)
  | r :: rs =>
      match send out r with
      | Some out' => send_all out' rs
      | None => (out, true)
      end
  end.

(** ** GET /api/v1/clients/:id *)

(** [if (!valid) { res.status(400).send(messageObj); }]: the reply to an
    invalid id, after which the handler goes on. *)
Definition invalid_id_reply (v : validation) : list response :=
  if valid v then [] else [Response 400 (ErrorBody (messageObj v))].

(** The calls the handler makes on [res], in order. *)
Definition get_client_calls (db : list client) (i : option Z) : list response :=
  invalid_id_reply (validateId db i)
  ++ [Response 200 (OneClient (get_by_id db i))].

Definition get_client (db : list client) (i : option Z) : outcome :=
  let '(out, raised) := send_all [] (get_client_calls db i) in
  Outcome out db raised.

(** ** Persistence *)

(** [UPDATE clients SET status = ?, priority = ? WHERE id = ?]. *)
Definition updateClient_run (db : list client) (c : client) : list client :=
  (fun row => if bool_decide (id row = id c)
              then Client (id row) (name row) (description row) (status c) (priority c)
              else row) <$> db.

(** [clients.forEach(client => updateClient.run(..))]: one statement per
    client, in array order, each outside any transaction. *)
Definition updateAllClients (clients db : list client) : list client :=
  foldl updateClient_run db clients.

(** The table when [updateAllClients] is interrupted after its first [k]
    statements: each statement is committed on its own. *)
Definition persisted_after (k : nat) (clients db : list client) : list client :=
  updateAllClients (take k clients) db.

(** ** Control flow of a handler body: go on, return, or throw *)

Inductive flow (A : Type) :=
  | Go (a : A)
  | Return (rs : list response) (db : list client)
  | Throw.
Arguments Go {A} a.
Arguments Return {A} rs db.
Arguments Throw {A}.

Definition bind {A B} (m : flow A) (k : A -> flow B) : flow B :=
  match m with
  | Go a => k a
  | Return rs db => Return rs db
  | Throw => Throw
  end.

Notation "'let*' x ':=' m 'in' k" := (bind m (fun x => k))
  (at level 10, x name, m at level 100, k at level 200).

(** Reading a field of a possibly undefined reference: a TypeError when
    the reference is undefined. *)
Definition field {A} (f : client -> A) (heap : list client) (r : option nat) : flow A :=
  match r with
  | None => Throw
  | Some k =>
      match heap !! k with
      | Some c => Go (f c)
      | None => Throw
      end
  end.

(** [clients.find(client => client.id === id)], as a reference. *)
Definition find_ref (clients : list client) (i : option Z) : option nat :=
  match i with
  | None => None
  | Some z => fst <$> list_find (fun c => id c = z) clients
  end.

Record request := Request { req_status : option string; req_priority : option Z }.

Definition truthy_status (s : option string) : bool :=
  match s with
  | None => false
  | Some s => truthy (Str s)
  end.

Definition truthy_priority (p : option Z) : bool :=
  match p with
  | None => false
  | Some z => truthy (of_int z)
  end.

Definition is_lane (s : string) : bool :=
  String.eqb s "backlog" || String.eqb s "in-progress" || String.eqb s "complete".

(** ** GET /api/v1/clients *)

(** [req.query.status] is modelled for a single query parameter: absent
    or a string.  With a truthy filter the rows come from
    [select * from clients where status = ?], without one from
    [select * from clients]. *)
Definition list_clients (db : list client) (status_ : option string) : outcome :=
  if truthy_status status_ then
    let s := default "" status_ in
    if negb (is_lane s)
    then Outcome [Response 400 (ErrorBody (Some status_invalid))] db false
    else Outcome [Response 200 (ClientList (filter (fun c => status c = s) db))]
                 db false
  else Outcome [Response 200 (ClientList db)] db false.

(** ** The two shifting loops *)

(** [a <= b < c] in JavaScript is [(a <= b) < c] with the boolean coerced
    to 0 or 1, and likewise [a >= b > c]. *)
Definition chain_le_lt (a b c : Z) : bool := Z.b2z (a <=? b) <? c.
Definition chain_ge_gt (a b c : Z) : bool := Z.b2z (a >=? b) >? c.

(** One iteration of the same-lane loop on the object at index [i].
    [originalClient] is a reference into the same heap, read afresh in
    every iteration. *)
Definition same_lane_step (status_ : string) (priority_ : Z)
    (originalClient : option nat) (heap : list client) (i : nat) : list client :=
  match heap !! i, originalClient ≫= (heap !!.) with
  | Some client_, Some original =>
      if negb (String.eqb (status client_) status_) then heap
      else if chain_le_lt priority_ (priority client_) (priority original)
      then <[i := set_priority client_ (priority client_ + 1)]> heap
      else if chain_ge_gt priority_ (priority client_) (priority original)
      then <[i := set_priority client_ (priority client_ - 1)]> heap
      else heap
  | _, _ => heap
  end.

Definition shift_same_lane (status_ : string) (priority_ : Z)
    (originalClient : option nat) (heap : list client) : list client :=
  foldl (same_lane_step status_ priority_ originalClient) heap (seq 0 (length heap)).

(** One iteration of the cross-lane loop; [vacated] is the comparison the
    revision uses on the lane the card leaves ([>] in server.js, [>=] in
    part_000). *)
Definition cross_lane_step (vacated : Z -> Z -> bool) (status_ : string)
    (priority_ : Z) (originalClient : option nat) (heap : list client) (i : nat)
    : list client :=
  match heap !! i, originalClient ≫= (heap !!.) with
  | Some client_, Some original =>
      if String.eqb (status client_) (status original) then
        if vacated (priority client_) (priority original)
        then <[i := set_priority client_ (priority client_ - 1)]> heap
        else heap
      else if String.eqb (status client_) status_ then
        if priority client_ >=? priority_
        then <[i := set_priority client_ (priority client_ + 1)]> heap
        else heap
      else heap
  | _, _ => heap
  end.

Definition shift_cross_lane (vacated : Z -> Z -> bool) (status_ : string)
    (priority_ : Z) (originalClient : option nat) (heap : list client) : list client :=
  foldl (cross_lane_step vacated status_ priority_ originalClient) heap
    (seq 0 (length heap)).

(** [clients.map(client => client.id === id ? updatedClient : client)]. *)
Definition replace_by_id (i : option Z) (updatedClient : client)
    (clients : list client) : list client :=
  (fun c => if bool_decide (Some (id c) = i) then updatedClient else c) <$> clients.

(** The handler's result.  [first] has gone out before the body: the
    reply to an invalid id, the first call on [res].  The body ends with
    the calls [rs] and the table [db'], or in the TypeError of reading a
    field of [undefined], before which nothing is written. *)
Definition run_handler (first : list response) (db : list client)
    (m : flow (list response * list client)) : outcome :=
  match m with
  | Go (rs, db') | Return rs db' =>
      let '(out, raised) := send_all first rs in Outcome out db' raised
  | Throw => Outcome first db true
  end.

(** ** PUT /api/v1/clients/:id: the part common to both revisions *)

(** [if (status) { if (status !== ..) return res.status(400).send(..) }
    else { status = originalClient.status }]. *)
Definition resolve_status (db clients : list client) (originalClient : option nat)
    (rq : request) : flow string :=
  if truthy_status (req_status rq) then
    let s := default "" (req_status rq) in
    if negb (is_lane s)
    then Return [Response 400 (ErrorBody (Some status_invalid))] db
    else Go s
  else field status clients originalClient.

(** The end of the handler: the moved card replaces its row, every row is
    written back, the list is sent. *)
Definition respond (db : list client) (i : option Z) (updatedClient : client)
    (heap : list client) : flow (list response * list client) :=
  let clients := replace_by_id i updatedClient heap in
  Go ([Response 200 (ClientList clients)], updateAllClients clients db).

(** ** PUT /api/v1/clients/:id, revision [src/unnamed/part_000] *)

Module Part000.

(** [clients.filter(client => client.status === status).length + 1]. *)
Definition maxPriority (clients : list client) (status_ : string) : Z :=
  Z.of_nat (length (filter (fun c => status c = status_) clients)) + 1.

(** [if (!priority) { if (originalClient.status === status) return
    res.status(200).send(clients); priority = maxPriority }]. *)
Definition resolve_priority (db clients : list client) (originalClient : option nat)
    (rq : request) (status_ : string) : flow Z :=
  if negb (truthy_priority (req_priority rq)) then
    let* os := field status clients originalClient in
    if String.eqb os status_
    then Return [Response 200 (ClientList clients)] db
    else Go (maxPriority clients status_)
  else Go (default 0 (req_priority rq)).

(** The two loops: within one swimlane, or between two. *)
Definition shift (db clients : list client) (originalClient : option nat)
    (status_ : string) (priority_ : Z) : flow (list client) :=
  let* os := field status clients originalClient in
  if String.eqb os status_ then
    let* op := field priority clients originalClient in
    if op =? priority_
    then Return [Response 200 (ClientList clients)] db
    else Go (shift_same_lane status_ priority_ originalClient clients)
  else Go (shift_cross_lane Z.geb status_ priority_ originalClient clients).

(** [if (priority > maxPriority) priority = maxPriority], then
    [updatedClient = { ...originalClient, status, priority }], read after
    the loop. *)
Definition finish (db : list client) (i : option Z) (originalClient : option nat)
    (status_ : string) (priority_ maxPriority : Z) (heap : list client)
    : flow (list response * list client) :=
  let priority_ := if priority_ >? maxPriority then maxPriority else priority_ in
  let* o := field (fun c => c) heap originalClient in
  let updatedClient := Client (id o) (name o) (description o) status_ priority_ in
  respond db i updatedClient heap.

Definition put_body (db : list client) (i : option Z) (rq : request)
    : flow (list response * list client) :=
  let clients := db in
  let originalClient := find_ref clients i in
  let* status_ := resolve_status db clients originalClient rq in
  let maxPriority := maxPriority clients status_ in
  let* priority_ := resolve_priority db clients originalClient rq status_ in
  let v := validatePriority (of_int priority_) in
  if negb (valid v) then Return [Response 400 (ErrorBody (messageObj v))] db else
  let* heap := shift db clients originalClient status_ priority_ in
  finish db i originalClient status_ priority_ maxPriority heap.

Definition put (db : list client) (i : option Z) (rq : request) : outcome :=
  run_handler (invalid_id_reply (validateId db i)) db (put_body db i rq).

End Part000.

(** ** PUT /api/v1/clients/:id, revision [src/server.js] *)

Module ServerJs.

(** The two loops of the branch [if (priority)]; a request for the rank
    the card has leaves the handler by a bare [return]. *)
Definition shift (db clients : list client) (originalClient : option nat)
    (status_ : string) (priority_ : Z) : flow (list client) :=
  let* os := field status clients originalClient in
  if String.eqb os status_ then
    let* op := field priority clients originalClient in
    if op =? priority_
    then Return [] db
    else Go (shift_same_lane status_ priority_ originalClient clients)
  else Go (shift_cross_lane Z.gtb status_ priority_ originalClient clients).

(** The branch taken without a priority:
    [if (status = originalClient.status) return] is an assignment, and in
    [clients.filter(client => client !== status)] an object is never
    identical to a string. *)
Definition default_priority (db clients : list client) (originalClient : option nat)
    : flow Z :=
  let* status_ := field status clients originalClient in
  if truthy (Str status_) then Return [] db
  else Go (Z.of_nat (length (filter (fun _ : client => True) clients))).

(** [updatedClient = { ...originalClient }] is taken before the loops: it
    is the object at [originalClient] in the array as loaded.  Every path
    that reaches its use has read [originalClient.status] before, so the
    copy is read where it is used.  [updatedClient.status] is assigned
    only when the body carries a status. *)
Definition finish (db clients : list client) (i : option Z)
    (originalClient : option nat) (updated_status : option string)
    (priority_ : Z) (heap : list client) : flow (list response * list client) :=
  let* o := field (fun c => c) clients originalClient in
  let updatedClient :=
    Client (id o) (name o) (description o)
           (default (status o) updated_status) priority_ in
  respond db i updatedClient heap.

Definition put_body (db : list client) (i : option Z) (rq : request)
    : flow (list response * list client) :=
  let clients := db in
  let originalClient := find_ref clients i in
  let* status_ := resolve_status db clients originalClient rq in
  let updated_status :=
    if truthy_status (req_status rq) then Some status_ else None in
  let* moved :=
    if truthy_priority (req_priority rq) then
      let priority_ := default 0 (req_priority rq) in
      let v := validatePriority (of_int priority_) in
      if negb (valid v) then Return [Response 400 (ErrorBody (messageObj v))] db else
      let* heap := shift db clients originalClient status_ priority_ in
      Go (priority_, heap)
    else
      let* priority_ := default_priority db clients originalClient in
      Go (priority_, clients) in
  finish db clients i originalClient updated_status (fst moved) (snd moved).

Definition put (db : list client) (i : option Z) (rq : request) : outcome :=
  run_handler (invalid_id_reply (validateId db i)) db (put_body db i rq).

End ServerJs.

(** * Specification vocabulary *)

(** ** The density invariant *)

Definition lane (L : string) (cs : list client) : list client :=
  filter (fun c => status c = L) cs.

Definition ranks (L : string) (cs : list client) : list Z :=
  priority <$> lane L cs.

(** The ranks held in lane [L] are exactly 1, 2, .., count of [L], as a
    multiset. *)
Definition dense (L : string) (cs : list client) : Prop :=
  ranks L cs ≡ₚ Z.of_nat <$> seq 1 (length (lane L cs)).

Definition lanes : list string := ["backlog"; "in-progress"; "complete"].

Definition density (cs : list client) : Prop :=
  Forall (fun L => dense L cs) lanes.

Global Instance density_dec cs : Decision (density cs).
Proof. unfold density, dense. apply _. Defined.

(** ** Requests *)

(** The lane a request asks for: the one in the body when it is truthy,
    the card's own otherwise. *)
Definition dest_lane (rq : request) (o : client) : string :=
  if truthy_status (req_status rq) then default "" (req_status rq) else status o.

(** A request for the card's own lane. *)
Definition own_lane (rq : request) (o : client) : Prop :=
  truthy_status (req_status rq) = false ∨ req_status rq = Some (status o).

(** A request for no rank or for the card's own. *)
Definition own_rank (rq : request) (o : client) : Prop :=
  truthy_priority (req_priority rq) = false ∨ req_priority rq = Some (priority o).

(** The rank part_000 works with on a cross-lane move to lane [s]: the
    one asked, or the size of that lane plus one when none is asked. *)
Definition rank_or_bottom (db : list client) (rq : request) (s : string) : Z :=
  if truthy_priority (req_priority rq) then default 0 (req_priority rq)
  else Part000.maxPriority db s.

(** The two revisions of the PUT handler. *)
Definition revisions : list (list client → option Z → request → outcome) :=
  [ServerJs.put; Part000.put].

(** ** Frames *)

(** [c'] is the card [c] with, at most, another rank; the rank too is kept
    outside the lanes [Lo] and [Ld]. *)
Definition touch (Lo Ld : string) (c c' : client) : Prop :=
  id c' = id c ∧ name c' = name c ∧ description c' = description c ∧
  status c' = status c ∧
  (status c ≠ Lo → status c ≠ Ld → priority c' = priority c).

(** [c'] is what became of the row [c] when the card [o] was moved to
    lane [Ld]. *)
Definition kept (o : client) (Ld : string) (c c' : client) : Prop :=
  id c' = id c ∧ name c' = name c ∧ description c' = description c ∧
  (id c ≠ id o → status c' = status c) ∧
  (status c ≠ status o → status c ≠ Ld → c' = c).

(** The client [c] and the row [row] are the same card. *)
Definition same_row (c row : client) : Prop :=
  id c = id row ∧ name c = name row ∧ description c = description row.

(** ** What the loops do to one card *)

(** The same-lane loop, when the moved card has a rank of 2 or more. *)
Definition raise (s : string) (c : client) : client :=
  if String.eqb (status c) s then set_priority c (priority c + 1) else c.

(** The cross-lane loop, while the moved card has lane [Lo] and rank
    [op]. *)
Definition cross (vacated : Z → Z → bool) (Lo s : string) (op p : Z)
    (c : client) : client :=
  if String.eqb (status c) Lo then
    if vacated (priority c) op then set_priority c (priority c - 1) else c
  else if String.eqb (status c) s then
    if priority c >=? p then set_priority c (priority c + 1) else c
  else c.

(** The two loops on a rank alone: a card of the lane left goes down when
    it is ranked above [op], a card of the lane entered goes up when it
    is ranked [p] or more. *)
Definition lower_above (op r : Z) : Z := if r >? op then r - 1 else r.
Definition raise_from (p r : Z) : Z := if r >=? p then r + 1 else r.

(** The list returned for a cross-lane move of the card [o] to lane [s],
    the loop comparing with the card's rank as loaded: the cards shifted
    against the rank asked [p], the card itself landing at rank [q]. *)
Definition moved_across (db : list client) (o : client) (s : string)
    (p q : Z) : list client :=
  replace_by_id (Some (id o)) (Client (id o) (name o) (description o) s q)
    (cross Z.gtb (status o) s (priority o) p <$> db).

(** No card of the moved card's lane, after it in the table, is ranked
    just above it. *)
Definition none_behind_above (db : list client) (k : nat) (o : client) : Prop :=
  Forall (fun c => status c = status o → priority c ≠ priority o - 1)
         (drop (S k) db).

(** The array while a loop runs: the objects before index [m] have been
    visited, the others not yet. *)
Definition visited (G : nat → client → client) (m : nat) (heap : list client)
    : list client :=
  imap G (take m heap) ++ drop m heap.

(** ** Reasoning about handler bodies *)

(** [wp m Q R]: when [m] goes on with [a] then [Q a]; when it returns
    after sending [rs] with table [db] then [R rs db]. *)
Definition wp {A} (m : flow A) (Q : A → Prop)
    (R : list response → list client → Prop) : Prop :=
  match m with
  | Go a => Q a
  | Return rs db => R rs db
  | Throw => True
  end.

(** The ways a PUT body can end without a TypeError: its calls on [res]
    and the table it left.  It stays silent, or reports an error, or
    answers with the array as loaded, in all three cases leaving the
    table alone; or it answers with the array after a loop, the moved
    card put in place, and has written that array back. *)
Inductive allowed (db : list client) (i : option Z) (rq : request)
    : list response → list client → Prop :=
  | allowed_silent : allowed db i rq [] db
  | allowed_error m : allowed db i rq [Response 400 (ErrorBody m)] db
  | allowed_unmoved k :
      find_ref db i = Some k →
      allowed db i rq [Response 200 (ClientList db)] db
  | allowed_moved k o heap u :
      find_ref db i = Some k → db !! k = Some o →
      Forall2 (touch (status o) (dest_lane rq o)) db heap →
      id u = id o → name u = name o → description u = description o →
      allowed db i rq [Response 200 (ClientList (replace_by_id i u heap))]
              (updateAllClients (replace_by_id i u heap) db).

(** ** Test boards *)

(** The spec's scenario: backlog ranked 1..5, three cards in progress. *)
Definition board : list client :=
  [ Client 1 "Nolan LLC" "" "backlog" 1;
    Client 2 "Boehm and Sons" "" "backlog" 2;
    Client 3 "Schumm-Labadie" "" "backlog" 3;
    Client 4 "Kohler Group" "" "backlog" 4;
    Client 5 "Romaguera Inc" "" "backlog" 5;
    Client 6 "Thompson PLC" "" "in-progress" 1;
    Client 7 "Walker-Williamson" "" "in-progress" 2;
    Client 8 "Willms-Abbott" "" "in-progress" 3;
    Client 9 "Wiza LLC" "" "complete" 1 ].

(** The scenario board after the backlog card of rank 2 went to the
    bottom of in-progress. *)
Definition moved_board : list client :=
  [ Client 1 "Nolan LLC" "" "backlog" 1;
    Client 2 "Boehm and Sons" "" "in-progress" 4;
    Client 3 "Schumm-Labadie" "" "backlog" 2;
    Client 4 "Kohler Group" "" "backlog" 3;
    Client 5 "Romaguera Inc" "" "backlog" 4;
    Client 6 "Thompson PLC" "" "in-progress" 1;
    Client 7 "Walker-Williamson" "" "in-progress" 2;
    Client 8 "Willms-Abbott" "" "in-progress" 3;
    Client 9 "Wiza LLC" "" "complete" 1 ].

(** A board whose rows are not in rank order: the backlog card of rank 1
    comes after the one of rank 2. *)
Definition unordered_board : list client :=
  [ Client 1 "Nolan LLC" "" "backlog" 2;
    Client 2 "Boehm and Sons" "" "backlog" 1;
    Client 3 "Thompson PLC" "" "in-progress" 1 ].

Definition show (cs : list client) : list (Z * string * Z) :=
  (fun c => (id c, status c, priority c)) <$> cs.

(** * Properties *)

(** ** Rows, ids and references *)

Lemma client_eta c :
  Client (id c) (name c) (description c) (status c) (priority c) = c.
Proof. by destruct c. Qed.

Lemma NoDup_fmap_lookup_inj {A B} (f : A → B) (l : list A) j k x y :
  NoDup (f <$> l) → l !! j = Some x → l !! k = Some y → f x = f y → j = k.
Proof.
  intros HN Hj Hk Hf.
  eapply NoDup_lookup; [exact HN | | ].
  - rewrite list_lookup_fmap, Hj. reflexivity.
  - rewrite list_lookup_fmap, Hk. simpl. by rewrite Hf.
Qed.

Lemma find_ref_Some db i k :
  find_ref db i = Some k →
  ∃ o, db !! k = Some o ∧ i = Some (id o) ∧ get_by_id db i = Some o.
Proof.
  unfold find_ref, get_by_id. destruct i as [z|]; [|done].
  destruct (list_find _ db) as [[k' o]|] eqn:Hf; [|done].
  simpl. intros [= ->]. apply list_find_Some in Hf as (Hk & Hz & _).
  exists o. by subst.
Qed.

Lemma find_ref_None db i : get_by_id db i = None → find_ref db i = None.
Proof.
  unfold find_ref, get_by_id. destruct i as [z|]; [|done].
  by destruct (list_find _ db) as [[k' o]|].
Qed.

Lemma get_by_id_find_ref db i o :
  get_by_id db i = Some o →
  ∃ k, find_ref db i = Some k ∧ db !! k = Some o ∧ i = Some (id o).
Proof.
  unfold find_ref, get_by_id. destruct i as [z|]; [|done].
  destruct (list_find _ db) as [[k o']|] eqn:Hf; [|done].
  simpl. intros [= ->]. apply list_find_Some in Hf as (Hk & Hz & _).
  exists k. by subst.
Qed.

Lemma field_found {A} (f : client → A) db i k o :
  find_ref db i = Some k → db !! k = Some o →
  field f db (find_ref db i) = Go (f o).
Proof. intros Hr Hk. unfold field. by rewrite Hr, Hk. Qed.

Lemma replace_by_id_lookup z u heap k h :
  heap !! k = Some h → id h = z →
  replace_by_id (Some z) u heap !! k = Some u.
Proof.
  intros Hk Hz. unfold replace_by_id.
  rewrite list_lookup_fmap, Hk. simpl.
  by rewrite bool_decide_eq_true_2 by congruence.
Qed.

Lemma replace_by_id_lookup_ne z u heap k h :
  heap !! k = Some h → id h ≠ z →
  replace_by_id (Some z) u heap !! k = Some h.
Proof.
  intros Hk Hz. unfold replace_by_id.
  rewrite list_lookup_fmap, Hk. simpl.
  by rewrite bool_decide_eq_false_2 by congruence.
Qed.

(** ** The validators *)

Lemma validateId_found db i o :
  get_by_id db i = Some o → validateId db i = Validation true None.
Proof.
  intros Hg. unfold validateId. destruct i; [|done]. by rewrite Hg.
Qed.

Lemma validatePriority_valid p : validatePriority p = Validation true None.
Proof.
  unfold validatePriority, js_and.
  destruct p as [| |b|[|neg|m e]|s|]; reflexivity.
Qed.

Lemma is_lane_truthy s : is_lane s = true → truthy (Str s) = true.
Proof. by destruct s. Qed.

Lemma truthy_priority_nonzero p : p ≠ 0 → truthy_priority (Some p) = true.
Proof. intros Hp. simpl. by apply negb_true_iff, Z.eqb_neq. Qed.

(** ** The lane of a request *)

Lemma dest_lane_given rq o :
  truthy_status (req_status rq) = true →
  dest_lane rq o = default "" (req_status rq).
Proof. unfold dest_lane. by intros ->. Qed.

Lemma dest_lane_own rq o :
  truthy_status (req_status rq) = false → dest_lane rq o = status o.
Proof. unfold dest_lane. by intros ->. Qed.

Lemma own_lane_dest rq o : own_lane rq o → dest_lane rq o = status o.
Proof.
  unfold own_lane, dest_lane. intros [->| ->]; [done|]. simpl.
  by destruct (negb _).
Qed.

Lemma resolve_status_dest db i rq o k :
  find_ref db i = Some k → db !! k = Some o →
  (truthy_status (req_status rq) = true → is_lane (dest_lane rq o) = true) →
  resolve_status db db (find_ref db i) rq = Go (dest_lane rq o).
Proof.
  intros Hr Hk Hv. unfold resolve_status, dest_lane in *.
  destruct (truthy_status (req_status rq)).
  - by rewrite Hv.
  - by eapply field_found.
Qed.

Lemma resolve_status_own db i rq o :
  get_by_id db i = Some o → is_lane (status o) = true → own_lane rq o →
  resolve_status db db (find_ref db i) rq = Go (status o).
Proof.
  intros Hfound Hlane Hown.
  destruct (get_by_id_find_ref _ _ _ Hfound) as (k & Hr & Hk & Hi).
  rewrite (resolve_status_dest db i rq o k Hr Hk).
  - by rewrite own_lane_dest.
  - intros _. by rewrite own_lane_dest.
Qed.

(** ** The loops only assign ranks, and only in the two lanes *)

Section Frame.
Variables Lo Ld : string.

Lemma touch_refl c : touch Lo Ld c c.
Proof. by unfold touch. Qed.

Lemma touch_set_priority c c' q :
  touch Lo Ld c c' → status c = Lo ∨ status c = Ld →
  touch Lo Ld c (set_priority c' q).
Proof.
  intros (? & ? & ? & ? & ?) Hl. unfold touch; simpl.
  repeat split; try done. intros; destruct Hl; congruence.
Qed.

Lemma Forall2_touch_refl l : Forall2 (touch Lo Ld) l l.
Proof. induction l; constructor; auto using touch_refl. Qed.

Lemma Forall2_touch_insert heap0 heap i c q :
  Forall2 (touch Lo Ld) heap0 heap →
  heap !! i = Some c → status c = Lo ∨ status c = Ld →
  Forall2 (touch Lo Ld) heap0 (<[i := set_priority c q]> heap).
Proof.
  intros HF Hi Hl.
  destruct (Forall2_lookup_r _ _ _ _ _ HF Hi) as (c0 & Hc0 & Ht).
  rewrite <- (list_insert_id heap0 i c0) by done.
  apply Forall2_insert; [done|].
  apply touch_set_priority; [done|].
  destruct Ht as (_ & _ & _ & Hs & _). rewrite <- Hs. done.
Qed.

Lemma same_lane_step_touch p r heap0 heap i :
  Forall2 (touch Lo Ld) heap0 heap →
  Forall2 (touch Lo Ld) heap0 (same_lane_step Ld p r heap i).
Proof.
  intros HF. unfold same_lane_step.
  destruct (heap !! i) as [c|] eqn:Hi; [|done].
  destruct (r ≫= (heap !!.)) as [o|]; [|done].
  destruct (String.eqb_spec (status c) Ld) as [Hs|Hs]; simpl; [|done].
  repeat case_match; try done; apply Forall2_touch_insert; auto.
Qed.

Lemma cross_lane_step_touch vacated p k o heap0 heap i :
  heap0 !! k = Some o → status o = Lo →
  Forall2 (touch Lo Ld) heap0 heap →
  Forall2 (touch Lo Ld) heap0 (cross_lane_step vacated Ld p (Some k) heap i).
Proof.
  intros Hk Ho HF. unfold cross_lane_step.
  destruct (heap !! i) as [c|] eqn:Hi; [|done]. simpl.
  destruct (heap !! k) as [o'|] eqn:Hk'; [|done].
  destruct (Forall2_lookup_lr _ _ _ _ _ _ HF Hk Hk') as (_ & _ & _ & Hso & _).
  destruct (String.eqb_spec (status c) (status o')) as [Hs|Hs].
  - case_match; [|done]. apply Forall2_touch_insert; auto.
    left. congruence.
  - destruct (String.eqb_spec (status c) Ld) as [Hd|Hd]; [|done].
    case_match; [|done]. apply Forall2_touch_insert; auto.
Qed.

Lemma foldl_touch (step : list client → nat → list client) heap0 :
  (∀ heap i, Forall2 (touch Lo Ld) heap0 heap →
             Forall2 (touch Lo Ld) heap0 (step heap i)) →
  ∀ idx heap, Forall2 (touch Lo Ld) heap0 heap →
              Forall2 (touch Lo Ld) heap0 (foldl step heap idx).
Proof.
  intros Hstep idx. induction idx as [|i idx IH]; simpl; auto.
Qed.

Lemma shift_same_lane_touch p r heap :
  Forall2 (touch Lo Ld) heap (shift_same_lane Ld p r heap).
Proof.
  unfold shift_same_lane. apply foldl_touch.
  - intros. by apply same_lane_step_touch.
  - apply Forall2_touch_refl.
Qed.

Lemma shift_cross_lane_touch vacated p k o heap :
  heap !! k = Some o → status o = Lo →
  Forall2 (touch Lo Ld) heap (shift_cross_lane vacated Ld p (Some k) heap).
Proof.
  intros Hk Ho. unfold shift_cross_lane. apply foldl_touch.
  - intros. by eapply cross_lane_step_touch.
  - apply Forall2_touch_refl.
Qed.

Lemma touch_lookup db heap k o o' :
  Forall2 (touch Lo Ld) db heap → db !! k = Some o → heap !! k = Some o' →
  id o' = id o ∧ name o' = name o ∧ description o' = description o.
Proof.
  intros HF H1 H2.
  destruct (Forall2_lookup_lr _ _ _ _ _ _ HF H1 H2) as (? & ? & ? & _). done.
Qed.

Lemma touch_lookup_l db heap k o :
  Forall2 (touch Lo Ld) db heap → db !! k = Some o →
  ∃ o', heap !! k = Some o' ∧
        id o' = id o ∧ name o' = name o ∧ description o' = description o.
Proof.
  intros HF Hk.
  destruct (Forall2_lookup_l _ _ _ _ _ HF Hk) as (o' & Hk' & ? & ? & ? & _).
  by exists o'.
Qed.
End Frame.

Lemma replace_by_id_kept db k o Ld heap u :
  NoDup (id <$> db) →
  db !! k = Some o →
  Forall2 (touch (status o) Ld) db heap →
  id u = id o → name u = name o → description u = description o →
  Forall2 (kept o Ld) db (replace_by_id (Some (id o)) u heap).
Proof.
  intros HN Hk HF Hu1 Hu2 Hu3.
  unfold replace_by_id. apply Forall2_fmap_r.
  apply Forall2_same_length_lookup. split; [by eapply Forall2_length|].
  intros j c h Hc Hh.
  destruct (Forall2_lookup_lr _ _ _ _ _ _ HF Hc Hh) as (H1 & H2 & H3 & H4 & H5).
  simpl. case_bool_decide as Hid.
  - assert (j = k) as ->.
    { eapply (NoDup_fmap_lookup_inj id); eauto. congruence. }
    assert (c = o) as -> by congruence.
    unfold kept. repeat split; done.
  - unfold kept. repeat split; try done.
    intros Ho Hd. specialize (H5 Ho Hd).
    rewrite <- (client_eta h), <- (client_eta c). congruence.
Qed.

Lemma kept_refl o Ld db : Forall2 (kept o Ld) db db.
Proof.
  apply Forall2_same_length_lookup. split; [done|].
  intros j c c' Hc Hc'. assert (c' = c) as -> by congruence.
  by unfold kept.
Qed.

Lemma kept_same_row o Ld db out :
  Forall2 (kept o Ld) db out → Forall2 same_row out db.
Proof.
  intros HF. apply Forall2_flip. eapply Forall2_impl; [exact HF|].
  intros c c' (? & ? & ? & _). by unfold same_row.
Qed.

(** ** How a handler body can end *)

Lemma wp_bind {A B} (m : flow A) (k : A → flow B) Q R :
  wp m (fun a => wp (k a) Q R) R → wp (bind m k) Q R.
Proof. by destruct m. Qed.

Lemma wp_if {A} (b : bool) (m1 m2 : flow A) Q R :
  (b = true → wp m1 Q R) → (b = false → wp m2 Q R) →
  wp (if b then m1 else m2) Q R.
Proof. destruct b; auto. Qed.

Lemma wp_field {A} (f : client → A) heap r Q R :
  (∀ k c, r = Some k → heap !! k = Some c → Q (f c)) →
  wp (field f heap r) Q R.
Proof.
  intros H. unfold field. destruct r as [k|]; [|done].
  destruct (heap !! k) eqn:E; [|done]. simpl. eauto.
Qed.

Lemma wp_go {A} (a : A) (Q : A → Prop) R : Q a → wp (Go a) Q R.
Proof. done. Qed.

Lemma wp_return {A} rs db (Q : A → Prop)
    (R : list response → list client → Prop) :
  R rs db → wp (Return rs db) Q R.
Proof. done. Qed.

(** On a fresh response a single call goes out and none raises. *)
Lemma send_all_short rs :
  (length rs ≤ 1)%nat → send_all [] rs = (rs, false).
Proof. destruct rs as [|r [|r' rs]]; simpl; [done..|lia]. Qed.

(** Nothing goes out that was not sent. *)
Lemma send_all_sent out rs r :
  r ∈ fst (send_all out rs) → r ∈ out ++ rs.
Proof.
  revert out. induction rs as [|r' rs IH]; intros out; cbn [send_all].
  - by rewrite app_nil_r.
  - rewrite elem_of_app, elem_of_cons.
    destruct out as [|o out]; cbn [send].
    + intros Hr%IH. apply elem_of_cons in Hr. tauto.
    + destruct (sets_header (payload r')); cbn [fst].
      * tauto.
      * intros Hr%IH. apply elem_of_app in Hr. tauto.
Qed.

(** A body that makes one call at most, on a fresh response. *)
Lemma run_fresh db m (P : list response → list client → Prop) :
  wp m (fun r => P (fst r) (snd r)) P →
  (∀ rs t, P rs t → (length rs ≤ 1)%nat) →
  (run_handler [] db m = Outcome [] db true ∧ m = Throw) ∨
  ∃ rs t, run_handler [] db m = Outcome rs t false ∧ P rs t.
Proof.
  intros Hm Hshort. destruct m as [[rs db']|rs db'|]; simpl in *.
  - right. exists rs, db'. by rewrite (send_all_short rs) by eauto.
  - right. exists rs, db'. by rewrite (send_all_short rs) by eauto.
  - by left.
Qed.

Lemma wp_run {db m} (P : list response → list client → Prop) :
  wp m (fun r => P (fst r) (snd r)) P →
  (∀ rs t, P rs t → (length rs ≤ 1)%nat) →
  threw (run_handler [] db m) = false →
  ∃ rs, sent (run_handler [] db m) = rs ∧
        P rs (table (run_handler [] db m)).
Proof.
  intros Hm Hshort.
  destruct (run_fresh db m P Hm Hshort) as [[-> _]|(rs & t & -> & HP)]; [done|].
  intros _. by exists rs.
Qed.

Ltac wp_step :=
  lazymatch goal with
  | |- wp (bind _ _) _ _ => apply wp_bind
  | |- wp (if _ then _ else _) _ _ => apply wp_if; intros ?
  | |- wp (field _ _ _) _ _ =>
      let k := fresh "k" in let c := fresh "c" in
      let Hr := fresh "Hr" in let Hc := fresh "Hc" in
      apply wp_field; intros k c Hr Hc
  | |- wp (Go _) _ _ => apply wp_go; cbv beta
  | |- wp (Return _ _) _ _ => apply wp_return; cbv beta
  | |- wp Throw _ _ => exact I
  end.

(** All reads of [originalClient] in one run see the same reference, and
    all reads of the array as loaded see the same object. *)
Ltac same_ref :=
  repeat match goal with
    | H1 : ?r = Some ?k, H2 : ?r = Some ?k' |- _ =>
        assert (k' = k) as -> by congruence; clear H2
    end.

Ltac touched rq c :=
  rewrite ?(dest_lane_given rq c), ?(dest_lane_own rq c) by done;
  repeat match goal with Hr : find_ref _ _ = Some _ |- _ => rewrite Hr end;
  eauto using shift_same_lane_touch, shift_cross_lane_touch, Forall2_touch_refl.

(** The last step of a body: the card [c1] is either the object as loaded
    or the object read back from the heap after the loop. *)
Ltac finish_moved :=
  lazymatch goal with
  | Hr : find_ref ?db ?i = Some ?k, Hc : ?db !! ?k = Some ?c
    |- allowed ?db ?i ?rq
         [Response 200 (ClientList (replace_by_id _ (Client (id ?c1) _ _ _ _) ?heap))] _ =>
      let HF := fresh "HF" in
      assert (Forall2 (touch (status c) (dest_lane rq c)) db heap) as HF
        by touched rq c;
      first
        [ by eapply (allowed_moved db i rq k c heap)
        | match goal with
          | Hh : heap !! k = Some c1 |- _ =>
              destruct (touch_lookup _ _ _ _ _ _ _ HF Hc Hh) as (? & ? & ?);
              by eapply (allowed_moved db i rq k c heap)
          end ]
  end.

Lemma part000_allowed db i rq :
  wp (Part000.put_body db i rq)
     (fun r => allowed db i rq (fst r) (snd r)) (allowed db i rq).
Proof.
  unfold Part000.put_body, resolve_status, Part000.resolve_priority,
    Part000.shift, Part000.finish, Part000.maxPriority, respond. cbv zeta.
  repeat wp_step; same_ref.
  all: try apply allowed_error.
  all: try (by eapply allowed_unmoved).
  all: try congruence.
  all: simpl fst; simpl snd.
  all: finish_moved.
Qed.

Lemma serverjs_allowed db i rq :
  wp (ServerJs.put_body db i rq)
     (fun r => allowed db i rq (fst r) (snd r)) (allowed db i rq).
Proof.
  unfold ServerJs.put_body, resolve_status, ServerJs.shift,
    ServerJs.default_priority, ServerJs.finish, respond. cbv zeta.
  repeat wp_step; same_ref.
  all: try apply allowed_error.
  all: try apply allowed_silent.
  all: try congruence.
  all: simpl fst; simpl snd.
  all: finish_moved.
Qed.

(** Membership in the list of revisions, by cases. *)
Ltac by_revision H :=
  unfold revisions in H;
  apply elem_of_cons in H as [->|H];
  [|apply list_elem_of_singleton in H as ->].

Lemma allowed_short db i rq rs t :
  allowed db i rq rs t → (length rs ≤ 1)%nat.
Proof. destruct 1; simpl; lia. Qed.

(** With an invalid id [originalClient] is undefined.  The 400 for the
    id has gone out; the body ends in the second 400, for the status,
    which raises, or in the TypeError of reading
    [originalClient.status]. *)
Lemma put_invalid_id put db i rq :
  put ∈ revisions →
  valid (validateId db i) = false →
  put db i rq
  = Outcome [Response 400 (ErrorBody (messageObj (validateId db i)))] db true.
Proof.
  intros Hp Hv.
  assert (find_ref db i = None) as Hr.
  { apply find_ref_None. revert Hv. unfold validateId.
    destruct i as [z|]; [|done]. by destruct (get_by_id db (Some z)). }
  by_revision Hp.
  - unfold ServerJs.put, ServerJs.put_body, invalid_id_reply,
      resolve_status, ServerJs.shift, ServerJs.default_priority.
    rewrite Hv, Hr. simpl.
    destruct (truthy_status (req_status rq)); simpl; [|done].
    destruct (is_lane (default "" (req_status rq))); simpl; [|done].
    by destruct (truthy_priority (req_priority rq)).
  - unfold Part000.put, Part000.put_body, invalid_id_reply,
      resolve_status, Part000.resolve_priority, Part000.shift.
    rewrite Hv, Hr. simpl.
    destruct (truthy_status (req_status rq)); simpl; [|done].
    destruct (is_lane (default "" (req_status rq))); simpl; [|done].
    by destruct (truthy_priority (req_priority rq)).
Qed.

Lemma revisions_allowed put db i rq :
  put ∈ revisions →
  threw (put db i rq) = false →
  ∃ rs, sent (put db i rq) = invalid_id_reply (validateId db i) ++ rs ∧
        allowed db i rq rs (table (put db i rq)).
Proof.
  intros Hp. destruct (valid (validateId db i)) eqn:Hv.
  - unfold invalid_id_reply at 1. rewrite Hv.
    by_revision Hp.
    + unfold ServerJs.put, invalid_id_reply. rewrite Hv.
      apply (wp_run (allowed db i rq));
        [apply serverjs_allowed|apply allowed_short].
    + unfold Part000.put, invalid_id_reply. rewrite Hv.
      apply (wp_run (allowed db i rq));
        [apply part000_allowed|apply allowed_short].
  - by rewrite (put_invalid_id put db i rq Hp Hv).
Qed.

Lemma sent_list_inv put db i rq out :
  put ∈ revisions →
  Response 200 (ClientList out) ∈ sent (put db i rq) →
  allowed db i rq [Response 200 (ClientList out)] (table (put db i rq)).
Proof.
  intros Hp Hin.
  assert (∀ v, Response 200 (ClientList out) ∉ invalid_id_reply v) as Hv.
  { intros v. unfold invalid_id_reply. destruct (valid v).
    - apply not_elem_of_nil.
    - intros Hx. by apply list_elem_of_singleton in Hx. }
  destruct (threw (put db i rq)) eqn:Ht.
  - exfalso. destruct (valid (validateId db i)) eqn:Hvalid.
    + revert Hin Ht. by_revision Hp.
      * unfold ServerJs.put, invalid_id_reply. rewrite Hvalid.
        destruct (run_fresh db _ _ (serverjs_allowed db i rq)
                    (allowed_short db i rq)) as [[-> _]|(rs & t & -> & _)];
          [|done].
        intros Hin. by apply not_elem_of_nil in Hin.
      * unfold Part000.put, invalid_id_reply. rewrite Hvalid.
        destruct (run_fresh db _ _ (part000_allowed db i rq)
                    (allowed_short db i rq)) as [[-> _]|(rs & t & -> & _)];
          [|done].
        intros Hin. by apply not_elem_of_nil in Hin.
    + rewrite (put_invalid_id put db i rq Hp Hvalid) in Hin.
      by apply list_elem_of_singleton in Hin.
  - destruct (revisions_allowed put db i rq Hp Ht) as (rs & Hs & Ha).
    rewrite Hs in Hin. apply elem_of_app in Hin as [Hin|Hin].
    { by apply Hv in Hin. }
    revert Ha. generalize (table (put db i rq)). intros t Ha.
    destruct Ha as [ | m | k Hr | k o heap u Hr Hk HF H1 H2 H3].
    + by apply not_elem_of_nil in Hin.
    + by apply list_elem_of_singleton in Hin.
    + apply list_elem_of_singleton in Hin. injection Hin as ->.
      by eapply allowed_unmoved.
    + apply list_elem_of_singleton in Hin. injection Hin as ->.
      by eapply allowed_moved.
Qed.

(** The shape of an answer carrying a list, with the card it moved. *)
Lemma allowed_list_inv db i rq out t :
  allowed db i rq [Response 200 (ClientList out)] t →
  ∃ k o, db !! k = Some o ∧ i = Some (id o) ∧ get_by_id db i = Some o ∧
    ((out = db ∧ t = db) ∨
     (∃ heap u, Forall2 (touch (status o) (dest_lane rq o)) db heap ∧
                id u = id o ∧ name u = name o ∧ description u = description o ∧
                out = replace_by_id i u heap ∧ t = updateAllClients out db)).
Proof.
  intros Ha. inversion Ha as [ | | k Hr | k o heap u Hr Hk HF H1 H2 H3]; subst.
  - destruct (find_ref_Some _ _ _ Hr) as (o & Hk & Hi & Hg).
    exists k, o. repeat split; try done. by left.
  - destruct (find_ref_Some _ _ _ Hr) as (o' & Hk' & Hi & Hg).
    assert (o' = o) as -> by congruence.
    exists k, o. repeat split; try done. right. exists heap, u. by repeat split.
Qed.

(** Every returned list is the table with lanes and ranks reassigned. *)
Lemma returned_list_kept put db i rq out :
  put ∈ revisions →
  NoDup (id <$> db) →
  Response 200 (ClientList out) ∈ sent (put db i rq) →
  ∃ o, get_by_id db i = Some o ∧
       Forall2 (kept o (dest_lane rq o)) db out ∧
       (table (put db i rq) = db ∧ out = db ∨
        table (put db i rq) = updateAllClients out db).
Proof.
  intros Hp HN Hin.
  apply (sent_list_inv _ _ _ _ _ Hp), allowed_list_inv in Hin.
  destruct Hin as (k & o & Hk & -> & Hg & Hcase).
  exists o. split; [done|].
  destruct Hcase as [[-> ->]|(heap & u & HF & H1 & H2 & H3 & -> & Ht)].
  - split; [apply kept_refl | by left].
  - split; [by eapply replace_by_id_kept | by right].
Qed.

(** ** Persistence, statement by statement *)

Lemma updateClient_run_other db c :
  id c ∉ id <$> db → updateClient_run db c = db.
Proof.
  intros Hn. unfold updateClient_run.
  induction db as [|r db IH]; [done|].
  rewrite fmap_cons in Hn. apply not_elem_of_cons in Hn as [Hr Hn].
  rewrite fmap_cons, IH by done. by rewrite bool_decide_eq_false_2.
Qed.

Lemma updateClient_run_app db1 db2 c :
  updateClient_run (db1 ++ db2) c = updateClient_run db1 c ++ updateClient_run db2 c.
Proof. unfold updateClient_run. apply fmap_app. Qed.

Lemma same_row_ids pending rest :
  Forall2 same_row pending rest → id <$> rest = id <$> pending.
Proof.
  induction 1 as [|c r p rd (Hid & _) _ IH]; [done|].
  by rewrite !fmap_cons, IH, Hid.
Qed.

Lemma updateClient_run_here done c r rd :
  id c ∉ id <$> done → id c ∉ id <$> rd → same_row c r →
  updateClient_run (done ++ r :: rd) c = (done ++ [c]) ++ rd.
Proof.
  intros Hd Hrd (Hid & Hname & Hdesc).
  change (r :: rd) with ([r] ++ rd).
  rewrite !updateClient_run_app.
  rewrite (updateClient_run_other done), (updateClient_run_other rd) by done.
  unfold updateClient_run. rewrite fmap_cons, fmap_nil.
  rewrite bool_decide_eq_true_2 by done.
  rewrite <- Hid, <- Hname, <- Hdesc, client_eta.
  by rewrite <- (assoc_L (++)).
Qed.

Lemma updateAllClients_prefix done pending rest k :
  NoDup (id <$> (done ++ pending)) →
  Forall2 same_row pending rest →
  updateAllClients (take k pending) (done ++ rest)
  = done ++ take k pending ++ drop k rest.
Proof.
  intros HN HF. revert done k HN.
  induction HF as [|c r p rd Hrow HF IH]; intros done k HN.
  - by destruct k.
  - destruct k as [|k]; [done|].
    change (updateAllClients (take (S k) (c :: p)) (done ++ r :: rd))
      with (updateAllClients (take k p) (updateClient_run (done ++ r :: rd) c)).
    rewrite fmap_app, fmap_cons in HN.
    apply NoDup_app in HN as (HN1 & HN2 & HN3).
    apply NoDup_cons in HN3 as (HN3 & HN4).
    rewrite updateClient_run_here; [|..|done].
    + rewrite IH.
      * by rewrite <- (assoc_L (++) done [c]).
      * rewrite <- (assoc_L (++) done [c]), fmap_app.
        change ([c] ++ p) with (c :: p). rewrite fmap_cons.
        apply NoDup_app. repeat split; try done. by apply NoDup_cons.
    + intros Hin. apply (HN2 _ Hin). by left.
    + by rewrite (same_row_ids _ _ HF).
Qed.

Lemma updateAllClients_take out db k :
  NoDup (id <$> db) → Forall2 same_row out db →
  persisted_after k out db = take k out ++ drop k db.
Proof.
  intros HN HF. unfold persisted_after.
  apply (updateAllClients_prefix [] out db k); [|done].
  by rewrite app_nil_l, <- (same_row_ids _ _ HF).
Qed.

(** ** What the loops compute *)

Lemma visited_lookup G m heap j :
  visited G m heap !! j
  = if decide (j < m)%nat then G j <$> heap !! j else heap !! j.
Proof.
  unfold visited. destruct (decide (j < m)%nat) as [Hlt|Hge].
  - destruct (decide (j < length heap)%nat) as [Hj|Hj].
    + rewrite lookup_app_l by (rewrite length_imap, length_take; lia).
      by rewrite list_lookup_imap, lookup_take_lt.
    + rewrite !lookup_ge_None_2; [done|lia|].
      rewrite length_app, length_imap, length_take, length_drop. lia.
  - destruct (decide (m ≤ length heap)%nat) as [Hm|Hm].
    + rewrite lookup_app_r by (rewrite length_imap, length_take; lia).
      rewrite length_imap, length_take, lookup_drop. f_equal. lia.
    + rewrite !lookup_ge_None_2; [done|lia|].
      rewrite length_app, length_imap, length_take, length_drop. lia.
Qed.

Lemma visited_next G m heap c :
  heap !! m = Some c →
  <[m := G m c]> (visited G m heap) = visited G (S m) heap.
Proof.
  intros Hc. unfold visited.
  pose proof (lookup_lt_Some _ _ _ Hc) as Hm.
  rewrite insert_app_r_alt by (rewrite length_imap, length_take; lia).
  rewrite length_imap, length_take.
  replace (m - m `min` length heap)%nat with 0%nat by lia.
  rewrite (drop_S _ _ _ Hc). cbn [insert list_insert].
  rewrite (take_S_r _ _ _ Hc), imap_app. cbn [imap].
  rewrite length_take, Nat.min_l, Nat.add_0_r by lia.
  by rewrite <- (assoc_L (++)).
Qed.

(** A loop that assigns [G m c] to the object at index [m], whatever it
    reads from the objects already visited, maps [G] over the array. *)
Lemma foldl_visited (step : list client → nat → list client) G heap :
  (∀ m c, heap !! m = Some c →
          step (visited G m heap) m = <[m := G m c]> (visited G m heap)) →
  foldl step heap (seq 0 (length heap)) = imap G heap.
Proof.
  intros Hstep.
  assert (∀ m, (m ≤ length heap)%nat →
               foldl step heap (seq 0 m) = visited G m heap) as Hm.
  { induction m as [|m IH]; intros Hm.
    - unfold visited. by rewrite take_0, drop_0.
    - rewrite seq_S, foldl_app, IH by lia. cbn [foldl Nat.add].
      destruct (lookup_lt_is_Some_2 heap m) as [c Hc]; [lia|].
      by rewrite (Hstep m c Hc), (visited_next G m heap c). }
  rewrite Hm by done. unfold visited.
  by rewrite firstn_all, drop_all, app_nil_r.
Qed.

Lemma raise_priority s c : priority c ≤ priority (raise s c).
Proof. unfold raise. destruct (String.eqb _ _); simpl; lia. Qed.

Lemma raise_card s c :
  id (raise s c) = id c ∧ name (raise s c) = name c ∧
  description (raise s c) = description c ∧ status (raise s c) = status c.
Proof. unfold raise. by destruct (String.eqb _ _). Qed.

(** With a moved card of rank 2 or more, [(priority <= client.priority) <
    originalClient.priority] compares 0 or 1 with that rank: it holds, and
    the card at hand is raised if it is in the lane. *)
Lemma same_lane_step_raises s p k heap i c o :
  heap !! i = Some c → heap !! k = Some o → 2 ≤ priority o →
  same_lane_step s p (Some k) heap i = <[i := raise s c]> heap.
Proof.
  intros Hi Hk Ho. unfold same_lane_step, raise. simpl. rewrite Hi, Hk.
  destruct (String.eqb (status c) s); simpl.
  - assert (chain_le_lt p (priority c) (priority o) = true) as ->; [|done].
    unfold chain_le_lt. apply Z.ltb_lt. destruct (p <=? priority c); simpl; lia.
  - by rewrite list_insert_id.
Qed.

(** The same-lane loop raises every card of the lane by one as soon as
    the moved card has a rank of 2 or more, whatever the rank asked. *)
Lemma shift_same_lane_raises_all s p k heap o :
  heap !! k = Some o → 2 ≤ priority o →
  shift_same_lane s p (Some k) heap = raise s <$> heap.
Proof.
  intros Hk Ho. unfold shift_same_lane.
  rewrite <- imap_const. apply foldl_visited. intros m c Hc.
  assert (∃ o', visited (const (raise s)) m heap !! k = Some o'
                ∧ 2 ≤ priority o') as (o' & Hk' & Ho').
  { rewrite visited_lookup, Hk. case_decide; eexists; (split; [done|]); [|done].
    simpl. pose proof (raise_priority s o). lia. }
  apply (same_lane_step_raises s p k _ m c o'); [|done..].
  rewrite visited_lookup, Hc. by rewrite decide_False by lia.
Qed.

Lemma cross_lane_step_cross vacated s p k heap i c o :
  heap !! i = Some c → heap !! k = Some o →
  cross_lane_step vacated s p (Some k) heap i
  = <[i := cross vacated (status o) s (priority o) p c]> heap.
Proof.
  intros Hi Hk. unfold cross_lane_step, cross. simpl. rewrite Hi, Hk.
  repeat case_match; try done; by rewrite list_insert_id.
Qed.

(** In server.js the loop never assigns the moved card: every card is
    compared with the rank the moved card had. *)
Lemma shift_cross_lane_gt s p k heap o :
  heap !! k = Some o →
  shift_cross_lane Z.gtb s p (Some k) heap
  = cross Z.gtb (status o) s (priority o) p <$> heap.
Proof.
  intros Hk. unfold shift_cross_lane.
  rewrite <- imap_const. apply foldl_visited. intros m c Hc.
  assert (visited (const (cross Z.gtb (status o) s (priority o) p)) m heap !! k
          = Some o) as Hk'.
  { rewrite visited_lookup, Hk. case_decide; [|done]. simpl. f_equal.
    unfold cross. rewrite String.eqb_refl.
    by assert ((priority o >? priority o) = false) as -> by lia. }
  apply (cross_lane_step_cross _ s p k _ m c o); [|done].
  rewrite visited_lookup, Hc. by rewrite decide_False by lia.
Qed.

(** In part_000 the loop lowers the moved card itself when it reaches it,
    and the cards after it in the array are compared with the lowered
    rank. *)
Lemma shift_cross_lane_ge s p k heap o :
  heap !! k = Some o →
  shift_cross_lane Z.geb s p (Some k) heap
  = imap (fun j => cross Z.geb (status o) s
                     (if decide (j ≤ k)%nat then priority o else priority o - 1) p)
         heap.
Proof.
  intros Hk. unfold shift_cross_lane.
  apply foldl_visited. intros m c Hc.
  set (G := fun j => cross Z.geb (status o) s
                       (if decide (j ≤ k)%nat then priority o else priority o - 1) p).
  assert (visited G m heap !! k
          = Some (if decide (k < m)%nat then set_priority o (priority o - 1) else o))
    as Hk'.
  { rewrite visited_lookup, Hk. case_decide; [|done]. simpl. f_equal.
    unfold G, cross. rewrite decide_True by lia. rewrite String.eqb_refl.
    by assert ((priority o >=? priority o) = true) as -> by lia. }
  assert (visited G m heap !! m = Some c) as Hm.
  { rewrite visited_lookup, Hc. by rewrite decide_False by lia. }
  rewrite (cross_lane_step_cross _ s p k _ m c _ Hm Hk').
  f_equal. unfold G.
  destruct (decide (k < m)%nat), (decide (m ≤ k)%nat); try lia; done.
Qed.

(** ** Requests that ask for nothing new *)

Section NoOp.
Variables (db : list client) (i : option Z) (rq : request) (o : client).
Hypothesis Hfound : get_by_id db i = Some o.
Hypothesis Hlane : is_lane (status o) = true.
Hypothesis Hown : own_lane rq o.
Hypothesis Hrank : own_rank rq o.

(** part_000 answers with the list as loaded and writes nothing. *)
Lemma part000_no_op :
  Part000.put db i rq = Outcome [Response 200 (ClientList db)] db false.
Proof.
  destruct (get_by_id_find_ref _ _ _ Hfound) as (k & Hr & Hk & Hi).
  unfold Part000.put, Part000.put_body. cbv zeta.
  rewrite (validateId_found _ _ _ Hfound), (resolve_status_own db i rq o) by done.
  cbn [bind]. unfold Part000.resolve_priority, Part000.shift.
  rewrite !(field_found _ db i k o Hr Hk). cbn [bind].
  rewrite !String.eqb_refl. cbn [bind].
  destruct Hrank as [Hp|Hp]; rewrite Hp; [done|].
  destruct (truthy_priority (Some (priority o))); [|done].
  change (default 0 (Some (priority o))) with (priority o). cbn [bind negb].
  rewrite validatePriority_valid. cbn [valid negb bind].
  by rewrite Z.eqb_refl.
Qed.

(** server.js writes nothing either, and sends nothing. *)
Lemma serverjs_no_op :
  ServerJs.put db i rq = Outcome [] db false.
Proof.
  destruct (get_by_id_find_ref _ _ _ Hfound) as (k & Hr & Hk & Hi).
  unfold ServerJs.put, ServerJs.put_body. cbv zeta.
  rewrite (validateId_found _ _ _ Hfound), (resolve_status_own db i rq o) by done.
  cbn [bind]. unfold ServerJs.default_priority, ServerJs.shift.
  rewrite !(field_found _ db i k o Hr Hk). cbn [bind].
  rewrite !String.eqb_refl. cbn [bind].
  rewrite (is_lane_truthy _ Hlane).
  destruct Hrank as [Hp|Hp]; rewrite Hp; [done|].
  destruct (truthy_priority (Some (priority o))); [|done].
  change (default 0 (Some (priority o))) with (priority o). cbn [bind negb].
  rewrite validatePriority_valid. cbn [valid negb bind].
  by rewrite Z.eqb_refl.
Qed.
End NoOp.

(** In server.js a request without a rank ends at
    [if (status = originalClient.status) return], whatever lane it asks
    for. *)
Lemma serverjs_missing_rank db i rq o :
  get_by_id db i = Some o →
  truthy (Str (status o)) = true →
  (truthy_status (req_status rq) = true → is_lane (dest_lane rq o) = true) →
  truthy_priority (req_priority rq) = false →
  ServerJs.put db i rq = Outcome [] db false.
Proof.
  intros Hfound Ht Hv Hp.
  destruct (get_by_id_find_ref _ _ _ Hfound) as (k & Hr & Hk & Hi).
  unfold ServerJs.put, ServerJs.put_body. cbv zeta.
  rewrite (validateId_found _ _ _ Hfound).
  rewrite (resolve_status_dest db i rq o k) by done. cbn [bind].
  rewrite Hp. unfold ServerJs.default_priority.
  rewrite (field_found _ db i k o Hr Hk). cbn [bind].
  by rewrite Ht.
Qed.

(** ** Same-lane moves *)

Section SameLane.
Variables (db : list client) (i : option Z) (rq : request) (o : client) (p : Z).
Hypothesis Hfound : get_by_id db i = Some o.
Hypothesis Hlane : is_lane (status o) = true.
Hypothesis Hown : own_lane rq o.
Hypothesis Hp : req_priority rq = Some p.
Hypothesis Hp0 : p ≠ 0.
Hypothesis Hne : p ≠ priority o.
Hypothesis Ho : 2 ≤ priority o.

(** Moving, within its lane, a card of rank 2 or more: server.js raises
    every other card of the lane by one and gives the card the rank
    asked. *)
Lemma serverjs_same_lane_move :
  sent (ServerJs.put db i rq)
  = [Response 200 (ClientList
       (replace_by_id i (set_priority o p) (raise (status o) <$> db)))].
Proof.
  destruct (get_by_id_find_ref _ _ _ Hfound) as (k & Hr & Hk & Hi).
  unfold ServerJs.put, ServerJs.put_body. cbv zeta.
  rewrite (validateId_found _ _ _ Hfound), (resolve_status_own db i rq o) by done.
  cbn [bind]. rewrite Hp, truthy_priority_nonzero by done.
  change (default 0 (Some p)) with p.
  rewrite validatePriority_valid. cbn [valid negb].
  unfold ServerJs.shift.
  rewrite !(field_found _ db i k o Hr Hk). cbn [bind].
  rewrite String.eqb_refl.
  assert ((priority o =? p) = false) as -> by (apply Z.eqb_neq; congruence).
  cbn [bind fst snd]. unfold ServerJs.finish.
  rewrite (field_found _ db i k o Hr Hk). cbn [bind]. unfold respond.
  rewrite Hr, (shift_same_lane_raises_all _ _ _ _ o) by done.
  cbn [run_handler invalid_id_reply valid sent send_all send].
  unfold set_priority. by destruct (truthy_status (req_status rq)).
Qed.

(** part_000 does the same, the rank asked being capped by the size of
    the lane plus one. *)
Lemma part000_same_lane_move :
  sent (Part000.put db i rq)
  = [Response 200 (ClientList
       (replace_by_id i
          (set_priority o (Z.min p (Part000.maxPriority db (status o))))
          (raise (status o) <$> db)))].
Proof.
  destruct (get_by_id_find_ref _ _ _ Hfound) as (k & Hr & Hk & Hi).
  unfold Part000.put, Part000.put_body. cbv zeta.
  rewrite (validateId_found _ _ _ Hfound), (resolve_status_own db i rq o) by done.
  cbn [bind]. unfold Part000.resolve_priority.
  rewrite Hp, truthy_priority_nonzero by done.
  change (default 0 (Some p)) with p. cbn [bind negb].
  rewrite validatePriority_valid. cbn [valid negb].
  unfold Part000.shift.
  rewrite !(field_found _ db i k o Hr Hk). cbn [bind].
  rewrite String.eqb_refl.
  assert ((priority o =? p) = false) as -> by (apply Z.eqb_neq; congruence).
  cbn [bind]. unfold Part000.finish.
  rewrite Hr, (shift_same_lane_raises_all _ _ _ _ o) by done.
  unfold field. rewrite list_lookup_fmap, Hk. cbn [fmap option_fmap option_map bind].
  unfold respond. cbn [run_handler invalid_id_reply valid sent send_all send].
  destruct (raise_card (status o) o) as (-> & -> & -> & _).
  unfold set_priority. do 5 f_equal.
  destruct (Z.gtb_spec p (Part000.maxPriority db (status o))); lia.
Qed.
End SameLane.

(** ** Ranks beyond the lane, in part_000 *)

Lemma part000_shift_moves db i o k s p :
  find_ref db i = Some k → db !! k = Some o →
  (status o = s → priority o ≠ p) →
  ∃ heap, Part000.shift db db (find_ref db i) s p = Go heap ∧
          Forall2 (touch (status o) s) db heap.
Proof.
  intros Hr Hk Hne. unfold Part000.shift.
  rewrite !(field_found _ db i k o Hr Hk). cbn [bind].
  destruct (String.eqb_spec (status o) s) as [Hs|Hs].
  - assert ((priority o =? p) = false) as -> by (apply Z.eqb_neq; auto).
    eexists. split; [done|]. apply shift_same_lane_touch.
  - rewrite Hr. eexists. split; [done|].
    eapply shift_cross_lane_touch; done.
Qed.

(** A rank above the number of cards of the requested lane plus one is
    replaced by that number plus one; the request is not rejected. *)
Lemma part000_clamps db i rq o p :
  get_by_id db i = Some o →
  (truthy_status (req_status rq) = true → is_lane (dest_lane rq o) = true) →
  req_priority rq = Some p →
  Part000.maxPriority db (dest_lane rq o) < p →
  (dest_lane rq o = status o → priority o ≠ p) →
  ∃ k out c,
    find_ref db i = Some k ∧
    sent (Part000.put db i rq) = [Response 200 (ClientList out)] ∧
    out !! k = Some c ∧ id c = id o ∧
    status c = dest_lane rq o ∧
    priority c = Part000.maxPriority db (dest_lane rq o).
Proof.
  intros Hfound Hvalid Hp Hbig Hne.
  destruct (get_by_id_find_ref _ _ _ Hfound) as (k & Hr & Hk & Hi).
  exists k.
  unfold Part000.put, Part000.put_body. cbv zeta.
  rewrite (validateId_found _ _ _ Hfound).
  rewrite (resolve_status_dest db i rq o k) by done. cbn [bind].
  unfold Part000.resolve_priority. rewrite Hp, truthy_priority_nonzero.
  2:{ unfold Part000.maxPriority in Hbig. lia. }
  change (default 0 (Some p)) with p. cbn [bind negb].
  rewrite validatePriority_valid. cbn [valid negb].
  destruct (part000_shift_moves db i o k (dest_lane rq o) p Hr Hk)
    as (heap & -> & HF); [by auto|].
  cbn [bind]. unfold Part000.finish.
  assert ((p >? Part000.maxPriority db (dest_lane rq o)) = true) as -> by lia.
  destruct (touch_lookup_l _ _ _ _ _ _ HF Hk) as (o' & Hk' & H1 & H2 & H3).
  unfold field. rewrite Hr, Hk'. cbn [bind]. unfold respond.
  cbn [run_handler invalid_id_reply valid sent send_all send].
  eexists _, _. split; [done|]. split; [done|].
  split; [rewrite Hi; by eapply replace_by_id_lookup|].
  by simpl.
Qed.

(** ** Cross-lane moves *)

Section CrossLane.
Variables (db : list client) (i : option Z) (rq : request) (o : client).
Variables (k : nat) (s : string).
Hypothesis Hr : find_ref db i = Some k.
Hypothesis Hk : db !! k = Some o.
Hypothesis Hs : req_status rq = Some s.
Hypothesis Hlane : is_lane s = true.
Hypothesis Hother : status o ≠ s.

Lemma cross_lane_status :
  resolve_status db db (find_ref db i) rq = Go s ∧
  truthy_status (req_status rq) = true.
Proof.
  assert (truthy_status (req_status rq) = true) as Ht.
  { rewrite Hs. by apply is_lane_truthy. }
  split; [|done].
  rewrite (resolve_status_dest db i rq o k Hr Hk);
    unfold dest_lane; rewrite Ht, Hs; done.
Qed.

Lemma cross_lane_found : validateId db i = Validation true None.
Proof.
  destruct (find_ref_Some _ _ _ Hr) as (o' & _ & _ & Hg).
  by eapply validateId_found.
Qed.

(** server.js, given a rank: the cards of the lane left, of a rank above
    the card's, go down by one, the cards of the lane entered, of the
    rank asked or more, go up by one, the card gets the lane and the rank
    asked. *)
Lemma serverjs_cross_lane_move p :
  req_priority rq = Some p → p ≠ 0 →
  sent (ServerJs.put db i rq)
  = [Response 200 (ClientList
       (replace_by_id i (Client (id o) (name o) (description o) s p)
          (cross Z.gtb (status o) s (priority o) p <$> db)))].
Proof.
  intros Hp Hp0. destruct cross_lane_status as [Hst Ht].
  unfold ServerJs.put, ServerJs.put_body. cbv zeta.
  rewrite cross_lane_found, Hst, Ht. cbn [bind].
  rewrite Hp, truthy_priority_nonzero by done.
  change (default 0 (Some p)) with p.
  rewrite validatePriority_valid. cbn [valid negb].
  unfold ServerJs.shift.
  rewrite !(field_found _ db i k o Hr Hk). cbn [bind].
  assert (String.eqb (status o) s = false) as -> by by apply String.eqb_neq.
  cbn [bind fst snd]. unfold ServerJs.finish.
  rewrite (field_found _ db i k o Hr Hk). cbn [bind]. unfold respond.
  rewrite Hr, (shift_cross_lane_gt _ _ _ _ o) by done.
  done.
Qed.

(** part_000, with or without a rank: as server.js but for the
    comparison [>=] on the lane left, whose second operand is the moved
    card's rank as the loop has left it. *)
Lemma part000_cross_lane_move :
  sent (Part000.put db i rq)
  = [Response 200 (ClientList
       (replace_by_id i
          (Client (id o) (name o) (description o) s
                  (Z.min (rank_or_bottom db rq s) (Part000.maxPriority db s)))
          (imap (fun j => cross Z.geb (status o) s
                   (if decide (j ≤ k)%nat then priority o else priority o - 1)
                   (rank_or_bottom db rq s)) db)))].
Proof.
  destruct cross_lane_status as [Hst Ht].
  unfold Part000.put, Part000.put_body. cbv zeta.
  rewrite cross_lane_found, Hst. cbn [bind].
  assert (Part000.resolve_priority db db (find_ref db i) rq s = Go (rank_or_bottom db rq s))
    as ->.
  { unfold Part000.resolve_priority, rank_or_bottom.
    destruct (truthy_priority (req_priority rq)); [done|]. cbn [negb].
    rewrite (field_found _ db i k o Hr Hk). cbn [bind].
    by assert (String.eqb (status o) s = false) as -> by by apply String.eqb_neq. }
  cbn [bind]. rewrite validatePriority_valid. cbn [valid negb].
  unfold Part000.shift.
  rewrite !(field_found _ db i k o Hr Hk). cbn [bind].
  assert (String.eqb (status o) s = false) as -> by by apply String.eqb_neq.
  cbn [bind]. unfold Part000.finish.
  rewrite Hr, (shift_cross_lane_ge _ _ _ _ o) by done.
  unfold field. rewrite list_lookup_imap, Hk. cbn [fmap option_fmap option_map bind].
  unfold respond. cbn [run_handler invalid_id_reply valid sent send_all send].
  set (c := cross _ _ _ _ _ o).
  assert (id c = id o ∧ name c = name o ∧ description c = description o)
    as (-> & -> & ->).
  { subst c. unfold cross. by repeat case_match. }
  do 5 f_equal.
  destruct (Z.gtb_spec (rank_or_bottom db rq s) (Part000.maxPriority db s)); lia.
Qed.

(** The rows of a returned list other than the moved card's. *)
Lemma replace_by_id_other G u j c :
  NoDup (id <$> db) → j ≠ k → db !! j = Some c →
  id (G j c) = id c →
  replace_by_id i u (imap G db) !! j = Some (G j c).
Proof.
  intros HN Hj Hc Hid.
  destruct (find_ref_Some _ _ _ Hr) as (o' & Hk' & -> & _).
  assert (o' = o) as -> by congruence.
  apply replace_by_id_lookup_ne.
  - by rewrite list_lookup_imap, Hc.
  - rewrite Hid. intros Heq. apply Hj.
    by eapply (NoDup_fmap_lookup_inj id).
Qed.

Lemma cross_id vacated Lo op p c : id (cross vacated Lo s op p c) = id c.
Proof. unfold cross. by repeat case_match. Qed.

Lemma cross_vacated vacated op p c :
  status c = status o → vacated (priority c) op = true →
  cross vacated (status o) s op p c = set_priority c (priority c - 1).
Proof.
  intros Hc Hv. unfold cross.
  assert (String.eqb (status c) (status o) = true) as ->
    by by apply String.eqb_eq.
  by rewrite Hv.
Qed.

Lemma cross_entered vacated op p c :
  status c = s → p ≤ priority c →
  cross vacated (status o) s op p c = set_priority c (priority c + 1).
Proof.
  intros Hc Hp. unfold cross.
  assert (String.eqb (status c) (status o) = false) as ->.
  { apply String.eqb_neq. congruence. }
  assert (String.eqb (status c) s = true) as -> by by apply String.eqb_eq.
  by assert ((priority c >=? p) = true) as -> by lia.
Qed.

(** part_000 on a cross-lane move: the card lands in the lane asked at
    the rank asked or defaulted, capped by [maxPriority]; every other card of the
    lane left whose rank is the card's or more goes down by one; every
    card of the lane entered whose rank is the landing rank or more goes
    up by one. *)
Lemma part000_cross_lane_effect :
  NoDup (id <$> db) →
  (∀ c, c ∈ lane s db → priority c < Part000.maxPriority db s) →
  let destRank := Z.min (rank_or_bottom db rq s) (Part000.maxPriority db s) in
  ∃ out,
    sent (Part000.put db i rq) = [Response 200 (ClientList out)] ∧
    out !! k = Some (Client (id o) (name o) (description o) s destRank) ∧
    ∀ j c, j ≠ k → db !! j = Some c →
      (status c = status o → priority o ≤ priority c →
       out !! j = Some (set_priority c (priority c - 1))) ∧
      (status c = s → destRank ≤ priority c →
       out !! j = Some (set_priority c (priority c + 1))).
Proof.
  intros HN Hbound destRank. eexists. split; [apply part000_cross_lane_move|].
  destruct (find_ref_Some _ _ _ Hr) as (o' & Hk' & Hi & _).
  assert (o' = o) as -> by congruence.
  split.
  { rewrite Hi. eapply replace_by_id_lookup.
    - rewrite list_lookup_imap, Hk. done.
    - apply cross_id. }
  intros j c Hj Hc. split; intros Hst Hrank.
  - rewrite (replace_by_id_other _ _ j c) by (done || apply cross_id).
    f_equal. apply cross_vacated; [done|]. case_decide; lia.
  - rewrite (replace_by_id_other _ _ j c) by (done || apply cross_id).
    f_equal. apply cross_entered; [done|].
    assert (priority c < Part000.maxPriority db s) as Hlt.
    { apply Hbound. apply list_elem_of_filter. split; [done|].
      by eapply list_elem_of_lookup_2. }
    subst destRank. lia.
Qed.

(** server.js on a cross-lane move with a rank, when no other card of the
    lane left has the card's rank: the same, without the cap. *)
Lemma serverjs_cross_lane_effect p :
  req_priority rq = Some p → p ≠ 0 →
  NoDup (id <$> db) →
  (∀ j c, j ≠ k → db !! j = Some c → status c = status o →
          priority c ≠ priority o) →
  ∃ out,
    sent (ServerJs.put db i rq) = [Response 200 (ClientList out)] ∧
    out !! k = Some (Client (id o) (name o) (description o) s p) ∧
    ∀ j c, j ≠ k → db !! j = Some c →
      (status c = status o → priority o ≤ priority c →
       out !! j = Some (set_priority c (priority c - 1))) ∧
      (status c = s → p ≤ priority c →
       out !! j = Some (set_priority c (priority c + 1))).
Proof.
  intros Hp Hp0 HN Huniq. eexists.
  split; [by apply serverjs_cross_lane_move|].
  destruct (find_ref_Some _ _ _ Hr) as (o' & Hk' & Hi & _).
  assert (o' = o) as -> by congruence.
  rewrite <- imap_const.
  split.
  { rewrite Hi. eapply replace_by_id_lookup.
    - rewrite list_lookup_imap, Hk. done.
    - apply cross_id. }
  intros j c Hj Hc. split; intros Hst Hrank.
  - rewrite (replace_by_id_other _ _ j c) by (done || apply cross_id).
    f_equal. apply cross_vacated; [done|].
    pose proof (Huniq j c Hj Hc Hst). lia.
  - rewrite (replace_by_id_other _ _ j c) by (done || apply cross_id).
    f_equal. by apply cross_entered.
Qed.
End CrossLane.

(** ** Evaluation on the test boards *)

(** Closed goals are settled by evaluation. *)
Ltac evaluated :=
  lazymatch goal with
  | |- _ = _ => vm_compute; reflexivity
  | |- ¬ _ => apply (bool_decide_eq_false_1 _); vm_compute; reflexivity
  | |- _ => apply (bool_decide_unpack _); vm_compute; exact I
  end.

Ltac each_revision :=
  unfold revisions; constructor; [|constructor; [|constructor]];
  cbv zeta; repeat apply conj.

Lemma board_ids_unique : NoDup (id <$> board).
Proof. apply (bool_decide_unpack _). vm_compute. exact I. Defined.

Lemma part000_in_revisions : Part000.put ∈ revisions.
Proof. unfold revisions. right. left. Defined.

Lemma serverjs_in_revisions : ServerJs.put ∈ revisions.
Proof. unfold revisions. left. Defined.

Lemma part000_moves_board :
  Response 200 (ClientList moved_board)
  ∈ sent (Part000.put board (Some 2) (Request (Some "in-progress") None)).
Proof. vm_compute. left. Defined.

(** In part_000 a cross-lane move loses density when a card of the lane
    left, ranked just above the moved card, comes after it in the table:
    the loop has lowered the moved card's own rank before it compares. *)
Lemma part000_cross_lane_lowers_card_behind :
  density unordered_board ∧
  show (table (Part000.put unordered_board (Some 1)
                 (Request (Some "in-progress") None)))
    = [ (1, "in-progress", 2); (2, "backlog", 0); (3, "in-progress", 1) ] ∧
  show (table (ServerJs.put unordered_board (Some 1)
                 (Request (Some "in-progress") (Some 2))))
    = [ (1, "in-progress", 2); (2, "backlog", 1); (3, "in-progress", 1) ].
Proof. repeat apply conj; evaluated. Qed.

(** * The claims *)

(** ** Density *)

(** C1, density is kept by every update: not so on the code.  The
    scenario board is dense; asking either revision to move the backlog
    card of rank 4 (id 4) to rank 1 is answered with a list, also written
    to the table, whose backlog ranks are 2, 3, 4, 1, 6: rank 5 is
    missing and rank 6 exceeds the five cards of the lane. *)
Theorem C1_same_lane_move_breaks_density :
  density board ∧
  Forall (fun put =>
    let r := put board (Some 4) (Request None (Some 1)) in
    sent r = [Response 200 (ClientList (table r))] ∧
    ranks "backlog" (table r) = [2; 3; 4; 1; 6] ∧
    ¬ density (table r)) revisions.
Proof. split; [evaluated | each_revision; evaluated]. Qed.

(** ** Same-lane moves *)

(** C2, the interval rule of a same-lane move: not what the code
    computes.  On the scenario board, moving the backlog card of rank 4 to
    rank 1 raises the card of rank 5 to rank 6 in both revisions, where
    the claim leaves it at 5; and moving the card of rank 1 down to rank 3
    raises the cards of ranks 2..5 to 3..6, where the claim lowers ranks 2
    and 3 to 1 and 2. *)
Theorem C2_same_lane_move_raises_the_whole_lane :
  Forall (fun put =>
    ranks "backlog" (table (put board (Some 4) (Request None (Some 1))))
      = [2; 3; 4; 1; 6] ∧
    ranks "backlog" (table (put board (Some 1) (Request None (Some 3))))
      = [3; 3; 4; 5; 6]) revisions.
Proof. each_revision; evaluated. Qed.

(** C7, a same-lane move followed by its reverse restores the ranks: not
    so on the code.  From backlog ranks 1..5, moving the card of rank 4 to
    rank 1 and then back to rank 4 ends, in both revisions, with the ranks
    3, 4, 4, 4, 7. *)
Theorem C7_move_and_reverse_does_not_restore :
  Forall (fun put =>
    let there := table (put board (Some 4) (Request None (Some 1))) in
    let back := table (put there (Some 4) (Request None (Some 4))) in
    ranks "backlog" board = [1; 2; 3; 4; 5] ∧
    ranks "backlog" there = [2; 3; 4; 1; 6] ∧
    ranks "backlog" back = [3; 4; 4; 4; 7]) revisions.
Proof. each_revision; evaluated. Qed.

(** ** Cross-lane moves *)

(** C3, a cross-lane move closes the gap, opens a slot and defaults a
    missing rank to the bottom of the new lane: server.js does not do the
    last.  Asked to move the backlog card of rank 2 to in-progress with no
    rank, server.js returns at [if (status = originalClient.status)]
    without answering and without moving anything; part_000 lands the card
    at in-progress rank 4 and lowers backlog ranks 3, 4, 5 to 2, 3, 4. *)
Theorem C3_missing_rank_moves_nothing_in_server_js :
  ServerJs.put board (Some 2) (Request (Some "in-progress") None)
    = Outcome [] board false ∧
  show (table (Part000.put board (Some 2) (Request (Some "in-progress") None)))
    = [ (1, "backlog", 1); (2, "in-progress", 4); (3, "backlog", 2);
        (4, "backlog", 3); (5, "backlog", 4); (6, "in-progress", 1);
        (7, "in-progress", 2); (8, "in-progress", 3); (9, "complete", 1) ].
Proof. split; evaluated. Qed.

(** C5, a rank beyond the destination lane is clamped to its bottom:
    server.js has no clamp.  Moving the backlog card of rank 2 to
    in-progress, which holds three cards, at rank 99 leaves it at rank 99
    in server.js; part_000 puts it at rank 4. *)
Theorem C5_rank_99_is_kept_in_server_js :
  show (table (ServerJs.put board (Some 2) (Request (Some "in-progress") (Some 99))))
    = [ (1, "backlog", 1); (2, "in-progress", 99); (3, "backlog", 2);
        (4, "backlog", 3); (5, "backlog", 4); (6, "in-progress", 1);
        (7, "in-progress", 2); (8, "in-progress", 3); (9, "complete", 1) ] ∧
  show (table (Part000.put board (Some 2) (Request (Some "in-progress") (Some 99))))
    = [ (1, "backlog", 1); (2, "in-progress", 4); (3, "backlog", 2);
        (4, "backlog", 3); (5, "backlog", 4); (6, "in-progress", 1);
        (7, "in-progress", 2); (8, "in-progress", 3); (9, "complete", 1) ].
Proof. split; evaluated. Qed.

(** ** No-op requests *)

(** C4, asking for the current lane and rank returns the unchanged set:
    server.js returns nothing.  For the card of id 4, asking for its own
    lane and rank, or for nothing at all, leaves the table alone in both
    revisions; part_000 answers 200 with the list as loaded, server.js
    leaves the handler by a bare [return] and sends no response. *)
Theorem C4_no_op_is_not_answered_in_server_js :
  ServerJs.put board (Some 4) (Request (Some "backlog") (Some 4))
    = Outcome [] board false ∧
  ServerJs.put board (Some 4) (Request None None)
    = Outcome [] board false ∧
  Part000.put board (Some 4) (Request (Some "backlog") (Some 4))
    = Outcome [Response 200 (ClientList board)] board false ∧
  Part000.put board (Some 4) (Request None None)
    = Outcome [Response 200 (ClientList board)] board false.
Proof. repeat apply conj; evaluated. Qed.

(** ** Validation *)

(** C6, [validatePriority] rejects what is not a positive integer: it
    rejects nothing.  [Number.isNaN(priority) && priority] is falsy for
    every value, NaN included, so every value is accepted: zero, negative
    numbers, fractions and strings as well as an absent priority. *)
Theorem C6_validatePriority_accepts_every_value (p : value) :
  validatePriority p = Validation true None.
Proof.
  unfold validatePriority.
  assert (truthy (js_and (Bool (Number_isNaN p)) p) = false) as ->; [|done].
  unfold js_and. destruct (Number_isNaN p) eqn:Hnan; [|done].
  simpl. by destruct p as [| | |[| |]| |].
Qed.

(** ** The frame of an update *)

(** C8, frame of an update.  Whenever a revision of the PUT handler
    answers with a list, on a table with unique ids, the id designates a
    card [o] of the table, the list has the rows of the table in the same
    number and order, each with its id, name and description; every row
    but the moved one keeps its lane; and every row of a lane other than
    the card's own and the requested one is unchanged. *)
Theorem C8_update_changes_only_lane_and_rank put db i rq out :
  put ∈ revisions →
  NoDup (id <$> db) →
  Response 200 (ClientList out) ∈ sent (put db i rq) →
  ∃ o, get_by_id db i = Some o ∧
       length out = length db ∧
       Forall2 (kept o (dest_lane rq o)) db out.
Proof.
  intros Hp HN Hin.
  destruct (returned_list_kept put db i rq out Hp HN Hin) as (o & Hg & HF & _).
  exists o. repeat split; try done. symmetry. by eapply Forall2_length.
Qed.

Lemma C8_update_changes_only_lane_and_rank_witness :
  ∃ o, get_by_id board (Some 2) = Some o ∧
       length moved_board = length board ∧
       Forall2 (kept o (dest_lane (Request (Some "in-progress") None) o))
               board moved_board.
Proof.
  apply (C8_update_changes_only_lane_and_rank Part000.put board (Some 2)
           (Request (Some "in-progress") None) moved_board).
  - exact part000_in_revisions.
  - exact board_ids_unique.
  - exact part000_moves_board.
Defined.

(** ** Persistence *)

(** C9, persisting the returned set is atomic: it is not.  Both revisions
    answer the request to move the backlog card of rank 2 to in-progress
    rank 4 with [moved_board], dense like the board it came from; when the
    loop of [updateAllClients] is interrupted after two statements the
    table is neither the old nor the new one, and backlog holds the ranks
    1, 3, 4, 5. *)
Lemma C9_interrupted_persistence_breaks_density :
  Forall (fun put =>
    sent (put board (Some 2) (Request (Some "in-progress") (Some 4)))
      = [Response 200 (ClientList moved_board)] ∧
    density board ∧ density moved_board ∧
    persisted_after 2 moved_board board ≠ board ∧
    persisted_after 2 moved_board board ≠ moved_board ∧
    ranks "backlog" (persisted_after 2 moved_board board) = [1; 3; 4; 5] ∧
    ¬ density (persisted_after 2 moved_board board)) revisions.
Proof. each_revision; evaluated. Qed.

(** C9 as amended, persistence runs row by row.  For a list [out] that a
    revision answers with on a table with unique ids: once all statements
    of [updateAllClients] have run the table is [out]; interrupted after
    [k] statements, the table has the first [k] rows of [out] followed by
    the old rows from the [k]-th on. *)
Theorem C9_persistence_is_row_by_row put db i rq out k :
  put ∈ revisions →
  NoDup (id <$> db) →
  Response 200 (ClientList out) ∈ sent (put db i rq) →
  persisted_after k out db = take k out ++ drop k db ∧
  table (put db i rq) = out.
Proof.
  intros Hp HN Hin.
  destruct (returned_list_kept put db i rq out Hp HN Hin) as (o & Hg & HF & Ht).
  pose proof (kept_same_row _ _ _ _ HF) as HR.
  split; [by apply updateAllClients_take|].
  destruct Ht as [[Ht ->]|Ht]; [done|].
  rewrite Ht. rewrite <- (firstn_all out) at 1.
  fold (persisted_after (length out) out db).
  rewrite updateAllClients_take by done.
  rewrite firstn_all, (Forall2_length _ _ _ HR), drop_all. apply app_nil_r.
Qed.

Lemma C9_persistence_is_row_by_row_witness :
  persisted_after 2 moved_board board = take 2 moved_board ++ drop 2 board ∧
  table (Part000.put board (Some 2) (Request (Some "in-progress") None))
    = moved_board.
Proof.
  apply (C9_persistence_is_row_by_row Part000.put board (Some 2)
           (Request (Some "in-progress") None) moved_board 2).
  - exact part000_in_revisions.
  - exact board_ids_unique.
  - exact part000_moves_board.
Defined.

(** ** Invalid ids *)

(** C10, after the 400 for an invalid id the GET handler also sends a 200
    response: it does not.  No card of the board has the id 44.  The
    handler makes both calls, the 400 and then the 200 with the empty
    lookup result, but the 400 is all that goes out: the second call has
    [undefined] to send on a response already sent. *)
Lemma C10_no_second_response_goes_out :
  valid (validateId board (Some 44)) = false ∧
  get_client_calls board (Some 44)
    = [Response 400 (ErrorBody (Some id_not_found));
       Response 200 (OneClient None)] ∧
  sent (get_client board (Some 44))
    = [Response 400 (ErrorBody (Some id_not_found))] ∧
  Forall (fun r => code r ≠ 200) (sent (get_client board (Some 44))).
Proof.
  split; [reflexivity|]. split; [reflexivity|]. split; [reflexivity|].
  apply (bool_decide_unpack _). vm_compute. exact I.
Qed.

(** C10 as amended, an invalid id does not stop the handlers.  When
    [validateId] reports the id invalid, the 400 reply goes out and the
    handlers run on.  The GET handler calls [send] again, for a 200 with
    the empty lookup result: nothing more goes out and no error is
    raised.  The PUT handler of both revisions runs on with an undefined
    [originalClient] and ends in an error, the table left alone and the
    400 for the id the only reply: the body ends in the second 400, for a
    truthy status that is not a lane, which raises on the response
    already sent, and otherwise in the TypeError of reading
    [originalClient.status]. *)
Theorem C10_invalid_id_does_not_stop_the_handlers db i :
  valid (validateId db i) = false →
  let reply := Response 400 (ErrorBody (messageObj (validateId db i))) in
  let refusal := Response 400 (ErrorBody (Some status_invalid)) in
  get_client_calls db i = [reply; Response 200 (OneClient None)] ∧
  get_client db i = Outcome [reply] db false ∧
  find_ref db i = None ∧
  (∀ rq,
     if truthy_status (req_status rq)
        && negb (is_lane (default "" (req_status rq)))
     then ServerJs.put_body db i rq = Return [refusal] db ∧
          Part000.put_body db i rq = Return [refusal] db ∧
          send [reply] refusal = None
     else ServerJs.put_body db i rq = Throw ∧
          Part000.put_body db i rq = Throw) ∧
  Forall (fun put => ∀ rq, put db i rq = Outcome [reply] db true) revisions.
Proof.
  intros Hv reply refusal.
  assert (get_by_id db i = None) as Hg.
  { revert Hv. unfold validateId. destruct i as [z|]; [|done].
    by destruct (get_by_id db (Some z)). }
  pose proof (find_ref_None _ _ Hg) as Hr.
  assert (get_client_calls db i = [reply; Response 200 (OneClient None)])
    as Hcalls.
  { unfold get_client_calls, invalid_id_reply. subst reply.
    by rewrite Hv, Hg. }
  split; [done|]. split; [|split; [done|split]].
  - unfold get_client. by rewrite Hcalls.
  - intros rq.
    unfold ServerJs.put_body, Part000.put_body, resolve_status,
      ServerJs.shift, ServerJs.default_priority,
      Part000.resolve_priority, Part000.shift.
    rewrite Hr. cbv zeta.
    destruct (truthy_status (req_status rq)); simpl; [|done].
    destruct (is_lane (default "" (req_status rq))); simpl; [|done].
    by destruct (truthy_priority (req_priority rq)).
  - apply Forall_forall. intros put Hp rq.
    by apply put_invalid_id.
Qed.

Lemma C10_invalid_id_does_not_stop_the_handlers_witness :
  let reply := Response 400 (ErrorBody (messageObj (validateId board (Some 44)))) in
  let refusal := Response 400 (ErrorBody (Some status_invalid)) in
  get_client_calls board (Some 44) = [reply; Response 200 (OneClient None)] ∧
  get_client board (Some 44) = Outcome [reply] board false ∧
  find_ref board (Some 44) = None ∧
  (∀ rq,
     if truthy_status (req_status rq)
        && negb (is_lane (default "" (req_status rq)))
     then ServerJs.put_body board (Some 44) rq = Return [refusal] board ∧
          Part000.put_body board (Some 44) rq = Return [refusal] board ∧
          send [reply] refusal = None
     else ServerJs.put_body board (Some 44) rq = Throw ∧
          Part000.put_body board (Some 44) rq = Throw) ∧
  Forall (fun put => ∀ rq, put board (Some 44) rq = Outcome [reply] board true)
         revisions.
Proof.
  apply (C10_invalid_id_does_not_stop_the_handlers board (Some 44)).
  vm_compute. reflexivity.
Defined.

(** * Further properties of the handlers *)

(** ** Ranks 1 .. n *)

Lemma elem_of_range n x :
  x ∈ Z.of_nat <$> seq 1 n ↔ 1 ≤ x ≤ Z.of_nat n.
Proof.
  rewrite list_elem_of_fmap. split.
  - intros (y & -> & Hy). apply elem_of_seq in Hy. lia.
  - intros Hx. exists (Z.to_nat x). split; [lia|]. apply elem_of_seq. lia.
Qed.

Lemma NoDup_range n : NoDup (Z.of_nat <$> seq 1 n).
Proof.
  apply NoDup_fmap_2_strong; [|apply NoDup_seq].
  intros x y _ _ Hxy. lia.
Qed.

(** Taking [op] out of the ranks 1 .. n+1 and closing the gap leaves the
    ranks 1 .. n. *)
Lemma lower_above_range op rest n :
  op :: rest ≡ₚ Z.of_nat <$> seq 1 (S n) →
  lower_above op <$> rest ≡ₚ Z.of_nat <$> seq 1 n.
Proof.
  intros HP.
  assert (NoDup (op :: rest)) as HN by (rewrite HP; apply NoDup_range).
  apply NoDup_cons in HN as [Hop HN].
  assert (1 ≤ op ≤ Z.of_nat (S n)) as Hrange.
  { apply elem_of_range. rewrite <- HP. by left. }
  assert (∀ r, r ∈ rest ↔ 1 ≤ r ≤ Z.of_nat (S n) ∧ r ≠ op) as Hrest.
  { intros r. split.
    - intros Hr. split; [|by intros ->].
      apply elem_of_range. rewrite <- HP. by right.
    - intros [Hr Hne]. apply elem_of_range in Hr. rewrite <- HP in Hr.
      apply elem_of_cons in Hr as [?|?]; done. }
  apply NoDup_Permutation.
  - apply NoDup_fmap_2_strong; [|done].
    intros x y Hx%Hrest Hy%Hrest. unfold lower_above.
    destruct (Z.gtb_spec x op), (Z.gtb_spec y op); lia.
  - apply NoDup_range.
  - intros x. rewrite list_elem_of_fmap, elem_of_range. split.
    + intros (r & -> & Hr%Hrest). unfold lower_above.
      destruct (Z.gtb_spec r op); lia.
    + intros Hx. destruct (decide (x < op)) as [Hlt|Hge].
      * exists x. split; [|apply Hrest; lia]. unfold lower_above.
        destruct (Z.gtb_spec x op); lia.
      * exists (x + 1). split; [|apply Hrest; lia]. unfold lower_above.
        destruct (Z.gtb_spec (x + 1) op); lia.
Qed.

(** Opening a slot at [p] in the ranks 1 .. m and filling it, or adding
    rank m+1 when [p] lies beyond, gives the ranks 1 .. m+1. *)
Lemma raise_from_range p rs m :
  1 ≤ p → rs ≡ₚ Z.of_nat <$> seq 1 m →
  Z.min p (Z.of_nat m + 1) :: (raise_from p <$> rs) ≡ₚ Z.of_nat <$> seq 1 (S m).
Proof.
  intros Hp HP. rewrite HP. clear rs HP.
  set (q := Z.min p (Z.of_nat m + 1)).
  assert (∀ x, x ∈ raise_from p <$> (Z.of_nat <$> seq 1 m)
               ↔ 1 ≤ x ≤ Z.of_nat m + 1 ∧ x ≠ q) as Hel.
  { intros x. rewrite list_elem_of_fmap. split.
    - intros (r & -> & Hr%elem_of_range). unfold raise_from.
      destruct (Z.geb_spec r p); lia.
    - intros [Hx Hne]. destruct (decide (x < p)) as [Hlt|Hge].
      + exists x. split; [|apply elem_of_range; lia]. unfold raise_from.
        destruct (Z.geb_spec x p); lia.
      + exists (x - 1). split; [|apply elem_of_range; lia]. unfold raise_from.
        destruct (Z.geb_spec (x - 1) p); lia. }
  apply NoDup_Permutation.
  - apply NoDup_cons. split.
    + intros Hq%Hel. lia.
    + apply NoDup_fmap_2_strong; [|apply NoDup_range].
      intros x y Hx%elem_of_range Hy%elem_of_range. unfold raise_from.
      destruct (Z.geb_spec x p), (Z.geb_spec y p); lia.
  - apply NoDup_range.
  - intros x. rewrite elem_of_cons, Hel, elem_of_range. lia.
Qed.

(** ** Density of one lane *)

Lemma dense_Permutation L cs cs' : cs ≡ₚ cs' → dense L cs → dense L cs'.
Proof.
  intros HP. unfold dense, ranks, lane. by rewrite HP.
Qed.

Lemma lane_cons_in L c cs : status c = L → lane L (c :: cs) = c :: lane L cs.
Proof. intros H. unfold lane. by rewrite filter_cons_True. Qed.

Lemma lane_cons_out L c cs : status c ≠ L → lane L (c :: cs) = lane L cs.
Proof. intros H. unfold lane. by rewrite filter_cons_False. Qed.

(** A map that keeps the lane of every card commutes with the choice of
    a lane. *)
Lemma lane_fmap L (g : client → client) cs :
  (∀ c, status (g c) = status c) → lane L (g <$> cs) = g <$> lane L cs.
Proof.
  intros Hg. induction cs as [|c cs IH]; [done|].
  rewrite fmap_cons. destruct (decide (status c = L)) as [Hc|Hc].
  - rewrite !lane_cons_in, fmap_cons, IH by (by rewrite ?Hg). done.
  - rewrite !lane_cons_out by (by rewrite ?Hg). done.
Qed.

Lemma cross_status vacated Lo s op p c :
  status (cross vacated Lo s op p c) = status c.
Proof. unfold cross. by repeat case_match. Qed.

Lemma cross_priority_left Lo s op p c :
  status c = Lo →
  priority (cross Z.gtb Lo s op p c) = lower_above op (priority c).
Proof.
  intros Hc. unfold cross, lower_above.
  assert (String.eqb (status c) Lo = true) as -> by by apply String.eqb_eq.
  by destruct (priority c >? op).
Qed.

Lemma cross_priority_entered Lo s op p c :
  status c = s → s ≠ Lo →
  priority (cross Z.gtb Lo s op p c) = raise_from p (priority c).
Proof.
  intros Hc Hs. unfold cross, raise_from.
  assert (String.eqb (status c) Lo = false) as ->.
  { apply String.eqb_neq. congruence. }
  assert (String.eqb (status c) s = true) as -> by by apply String.eqb_eq.
  by destruct (priority c >=? p).
Qed.

Lemma cross_other Lo s op p c :
  status c ≠ Lo → status c ≠ s → cross Z.gtb Lo s op p c = c.
Proof.
  intros H1 H2. unfold cross.
  assert (String.eqb (status c) Lo = false) as -> by by apply String.eqb_neq.
  by assert (String.eqb (status c) s = false) as -> by by apply String.eqb_neq.
Qed.

(** The ranks of a lane after the loop, for the cards other than the
    moved one. *)
Lemma ranks_cross L Lo s op p cs :
  s ≠ Lo →
  ranks L (cross Z.gtb Lo s op p <$> cs)
  = (if decide (L = Lo) then lower_above op
     else if decide (L = s) then raise_from p else Datatypes.id)
    <$> ranks L cs.
Proof.
  intros Hs. unfold ranks.
  rewrite lane_fmap by apply cross_status.
  rewrite <- !list_fmap_compose.
  apply Forall_fmap_ext, Forall_forall. intros c Hc.
  apply list_elem_of_filter in Hc as [Hc _]. simpl.
  destruct (decide (L = Lo)) as [->|HLo].
  - by apply cross_priority_left.
  - destruct (decide (L = s)) as [->|HLs].
    + by apply cross_priority_entered.
    + rewrite cross_other by congruence. done.
Qed.

(** The returned list, up to the order of its rows: the moved card in
    its new lane, and the other rows after the loop. *)
Lemma moved_across_Permutation db k o s p q :
  NoDup (id <$> db) → db !! k = Some o →
  moved_across db o s p q
  ≡ₚ Client (id o) (name o) (description o) s q
     :: (cross Z.gtb (status o) s (priority o) p <$> delete k db).
Proof.
  intros HN Hk. unfold moved_across, replace_by_id.
  rewrite <- list_fmap_compose.
  rewrite (delete_Permutation db k o Hk) at 1.
  rewrite (delete_Permutation db k o Hk), fmap_cons in HN.
  apply NoDup_cons in HN as [Hnotin _].
  rewrite fmap_cons. simpl.
  rewrite bool_decide_eq_true_2 by (by rewrite cross_id).
  apply Permutation_skip.
  assert (∀ A (x y : list A), x = y → x ≡ₚ y) as Heq by (by intros ??? ->).
  apply Heq, Forall_fmap_ext, Forall_forall. intros c Hc. simpl.
  rewrite bool_decide_eq_false_2; [done|].
  rewrite cross_id. intros [= Hid].
  apply Hnotin. rewrite <- Hid. apply list_elem_of_fmap. by exists c.
Qed.

(** ** A cross-lane move that compares with the rank as loaded keeps
    every dense lane dense *)

Section MovedAcross.
Variables (db : list client) (k : nat) (o : client) (s : string) (p : Z).
Hypothesis HN : NoDup (id <$> db).
Hypothesis Hk : db !! k = Some o.
Hypothesis Hs : status o ≠ s.
Hypothesis Hp : 1 ≤ p.

Lemma moved_across_dense L :
  dense L db →
  dense L (moved_across db o s p (Z.min p (Part000.maxPriority db s))).
Proof.
  intros HD.
  apply (dense_Permutation L _ _ (delete_Permutation db k o Hk)) in HD.
  eapply dense_Permutation.
  { symmetry. by apply moved_across_Permutation. }
  set (q := Z.min p (Part000.maxPriority db s)).
  set (u := Client (id o) (name o) (description o) s q).
  set (db' := delete k db) in *.
  assert (length (lane s db) = length (lane s db')) as Hlen.
  { unfold lane. rewrite (delete_Permutation db k o Hk).
    by rewrite filter_cons_False. }
  unfold dense in *.
  destruct (decide (L = status o)) as [->|HLo].
  - (* the lane left *)
    unfold ranks in HD. rewrite lane_cons_in in HD by done.
    rewrite fmap_cons in HD. cbn [length] in HD.
    unfold ranks at 1. rewrite lane_cons_out by (subst u; simpl; congruence).
    fold (ranks (status o) (cross Z.gtb (status o) s (priority o) p <$> db')).
    rewrite ranks_cross by congruence. rewrite decide_True by done.
    rewrite lane_fmap, length_fmap by apply cross_status.
    by apply lower_above_range.
  - unfold ranks in HD. rewrite lane_cons_out in HD by congruence.
    fold (ranks L db') in HD.
    destruct (decide (L = s)) as [->|HLs].
    + (* the lane entered *)
      unfold ranks at 1. rewrite lane_cons_in by done.
      rewrite fmap_cons. cbn [length].
      fold (ranks s (cross Z.gtb (status o) s (priority o) p <$> db')).
      rewrite ranks_cross by congruence.
      rewrite decide_False, decide_True by congruence.
      rewrite lane_fmap, length_fmap by apply cross_status.
      subst u q. cbn [priority]. unfold Part000.maxPriority.
      fold (lane s db). rewrite Hlen.
      by apply raise_from_range.
    + (* the other lanes *)
      unfold ranks at 1. rewrite lane_cons_out by (subst u; simpl; congruence).
      fold (ranks L (cross Z.gtb (status o) s (priority o) p <$> db')).
      rewrite ranks_cross by congruence.
      rewrite !decide_False by congruence.
      rewrite lane_fmap, length_fmap by apply cross_status.
      by rewrite list_fmap_id.
Qed.
End MovedAcross.

(** ** What a dense lane gives *)

Lemma NoDup_fmap_filter_lookup {A B} (f : A → B) (P : A → Prop)
    `{∀ x, Decision (P x)} (l : list A) j k x y :
  NoDup (f <$> filter P l) →
  l !! j = Some x → l !! k = Some y → P x → P y → f x = f y → j = k.
Proof.
  revert j k. induction l as [|a l IH]; intros j k HN Hj Hk Px Py Hf; [done|].
  assert (∀ z, z ∈ l → P z → f z ∈ f <$> filter P l) as Hin.
  { intros z Hz Pz. apply list_elem_of_fmap. exists z. split; [done|].
    by apply list_elem_of_filter. }
  destruct j as [|j], k as [|k]; simpl in *; [done| | |].
  - injection Hj as ->. rewrite filter_cons_True, fmap_cons in HN by done.
    apply NoDup_cons in HN as [Hn _]. exfalso. apply Hn. rewrite Hf.
    apply Hin; [|done]. by eapply list_elem_of_lookup_2.
  - injection Hk as ->. rewrite filter_cons_True, fmap_cons in HN by done.
    apply NoDup_cons in HN as [Hn _]. exfalso. apply Hn. rewrite <- Hf.
    apply Hin; [|done]. by eapply list_elem_of_lookup_2.
  - f_equal. apply IH; try done.
    rewrite filter_cons in HN. destruct (decide (P a)); [|done].
    rewrite fmap_cons in HN. by apply NoDup_cons in HN as [_ HN].
Qed.

(** In a dense lane no two cards have the same rank. *)
Lemma dense_ranks_differ L db j k c o :
  dense L db → db !! j = Some c → db !! k = Some o →
  status c = L → status o = L → priority c = priority o → j = k.
Proof.
  intros HD Hj Hk Hc Ho Hp.
  eapply (NoDup_fmap_filter_lookup priority (fun c => status c = L)); try done.
  unfold dense, ranks, lane in HD. rewrite HD. apply NoDup_range.
Qed.

(** In a dense lane every rank is between 1 and the size of the lane. *)
Lemma dense_rank_bounds L db c :
  dense L db → c ∈ lane L db →
  1 ≤ priority c ≤ Z.of_nat (length (lane L db)).
Proof.
  intros HD Hc. apply elem_of_range. unfold dense, ranks in HD.
  rewrite <- HD. apply list_elem_of_fmap. by exists c.
Qed.

(** ** The table after an answer *)

Lemma returned_list_persisted put db i rq out :
  put ∈ revisions → NoDup (id <$> db) →
  Response 200 (ClientList out) ∈ sent (put db i rq) →
  table (put db i rq) = out.
Proof.
  intros Hp HN Hin.
  destruct (returned_list_kept put db i rq out Hp HN Hin) as (o & Hg & HF & Ht).
  pose proof (kept_same_row _ _ _ _ HF) as HR.
  destruct Ht as [[Ht ->]|Ht]; [done|].
  rewrite Ht. rewrite <- (firstn_all out) at 1.
  fold (persisted_after (length out) out db).
  rewrite updateAllClients_take by done.
  rewrite firstn_all, (Forall2_length _ _ _ HR), drop_all. apply app_nil_r.
Qed.

(** ** Cross-lane moves and density *)

Section CrossLaneDense.
Variables (db : list client) (i : option Z) (rq : request) (o : client).
Variables (k : nat) (s : string).
Hypothesis Hr : find_ref db i = Some k.
Hypothesis Hk : db !! k = Some o.
Hypothesis Hs : req_status rq = Some s.
Hypothesis Hlane : is_lane s = true.
Hypothesis Hother : status o ≠ s.
Hypothesis HN : NoDup (id <$> db).

Lemma moved_id : i = Some (id o).
Proof.
  destruct (find_ref_Some _ _ _ Hr) as (o' & Hk' & Hi & _). congruence.
Qed.

Lemma serverjs_moves_across p :
  req_priority rq = Some p → p ≠ 0 →
  sent (ServerJs.put db i rq)
  = [Response 200 (ClientList (moved_across db o s p p))] ∧
  table (ServerJs.put db i rq) = moved_across db o s p p.
Proof.
  intros Hp Hp0.
  pose proof (serverjs_cross_lane_move db i rq o k s Hr Hk Hs Hlane Hother
                p Hp Hp0) as Hsent.
  rewrite moved_id in Hsent at 2. fold (moved_across db o s p p) in Hsent.
  split; [done|].
  apply returned_list_persisted; [apply serverjs_in_revisions|done|].
  rewrite Hsent. left.
Qed.

(** The rows part_000 answers with are those of [moved_across] when the
    lane left is dense and the card ranked just above the moved one does
    not come after it. *)
Lemma part000_loop_as_loaded p u :
  dense (status o) db → none_behind_above db k o →
  replace_by_id i u
    (imap (fun j => cross Z.geb (status o) s
             (if decide (j ≤ k)%nat then priority o else priority o - 1) p) db)
  = replace_by_id i u (cross Z.gtb (status o) s (priority o) p <$> db).
Proof.
  intros HD Hbehind. rewrite moved_id. unfold replace_by_id.
  apply list_eq. intros j.
  rewrite !list_lookup_fmap, list_lookup_imap.
  destruct (db !! j) as [c|] eqn:Hc; [|done]. simpl. f_equal.
  rewrite !cross_id.
  case_bool_decide as Hid; [done|].
  assert (j ≠ k) as Hjk by (intros ->; congruence).
  unfold cross.
  destruct (String.eqb_spec (status c) (status o)) as [Hst|Hst]; [|done].
  assert (priority c ≠ priority o) as Hne.
  { intros Heq. apply Hjk. by eapply (dense_ranks_differ (status o) db). }
  destruct (decide (j ≤ k)%nat) as [Hle|Hgt].
  - by assert ((priority c >=? priority o) = (priority c >? priority o))
      as -> by lia.
  - assert (priority c ≠ priority o - 1) as Hne'.
    { unfold none_behind_above in Hbehind.
      rewrite Forall_lookup in Hbehind.
      apply (Hbehind (j - S k)%nat c); [|done].
      rewrite lookup_drop, <- Hc. f_equal. lia. }
    by assert ((priority c >=? priority o - 1) = (priority c >? priority o))
      as -> by lia.
Qed.

Lemma part000_moves_across :
  dense (status o) db → none_behind_above db k o →
  let p := rank_or_bottom db rq s in
  let q := Z.min p (Part000.maxPriority db s) in
  sent (Part000.put db i rq)
  = [Response 200 (ClientList (moved_across db o s p q))] ∧
  table (Part000.put db i rq) = moved_across db o s p q.
Proof.
  intros HD Hbehind p q.
  pose proof (part000_cross_lane_move db i rq o k s Hr Hk Hs Hlane Hother)
    as Hsent.
  rewrite part000_loop_as_loaded in Hsent by done.
  rewrite moved_id in Hsent at 2. fold p q in Hsent.
  fold (moved_across db o s p q) in Hsent.
  split; [done|].
  apply returned_list_persisted; [apply part000_in_revisions|done|].
  rewrite Hsent. left.
Qed.
End CrossLaneDense.

(** ** Looking a card up *)

Lemma get_by_id_None db z : get_by_id db (Some z) = None ↔ z ∉ id <$> db.
Proof.
  unfold get_by_id. split.
  - intros Hf Hin. apply list_elem_of_fmap in Hin as (c & -> & Hc).
    destruct (list_find (λ c0, id c0 = id c) db) as [[k o]|] eqn:E; [done|].
    apply list_find_None in E. rewrite Forall_forall in E.
    by apply (E c Hc).
  - intros Hn. destruct (list_find (λ c, id c = z) db) as [[k o]|] eqn:E; [|done].
    apply list_find_Some in E as (Hk & Hz & _). exfalso. apply Hn.
    apply list_elem_of_fmap. exists o. split; [done|].
    by eapply list_elem_of_lookup_2.
Qed.

Lemma get_by_id_lookup db k c :
  NoDup (id <$> db) → db !! k = Some c → get_by_id db (Some (id c)) = Some c.
Proof.
  intros HN Hk. unfold get_by_id.
  destruct (list_find (λ c0, id c0 = id c) db) as [[j o]|] eqn:E.
  - apply list_find_Some in E as (Hj & Hz & _). simpl. f_equal.
    assert (j = k) as -> by (by eapply (NoDup_fmap_lookup_inj id)).
    congruence.
  - apply list_find_None in E. rewrite Forall_forall in E.
    exfalso. apply (E c); [|done]. by eapply list_elem_of_lookup_2.
Qed.

Lemma find_ref_lookup db k c :
  NoDup (id <$> db) → db !! k = Some c → find_ref db (Some (id c)) = Some k.
Proof.
  intros HN Hk. unfold find_ref.
  destruct (list_find (λ c0, id c0 = id c) db) as [[j o]|] eqn:E.
  - apply list_find_Some in E as (Hj & Hz & _). simpl. f_equal.
    by eapply (NoDup_fmap_lookup_inj id).
  - apply list_find_None in E. rewrite Forall_forall in E.
    exfalso. apply (E c); [|done]. by eapply list_elem_of_lookup_2.
Qed.

(** X1, [validateId] accepts exactly the ids of the table.  NaN is
    refused as not an integer, an integer that no row carries as not
    found, and every id of a row of the table is accepted. *)
Theorem X1_validateId_accepts_the_ids_of_the_table db i :
  validateId db i
  = match i with
    | None => Validation false (Some id_not_integer)
    | Some z =>
        if bool_decide (z ∈ id <$> db) then Validation true None
        else Validation false (Some id_not_found)
    end.
Proof.
  unfold validateId. destruct i as [z|]; [|done].
  case_bool_decide as Hin.
  - destruct (get_by_id db (Some z)) eqn:E; [done|].
    by apply get_by_id_None in E.
  - by apply get_by_id_None in Hin as ->.
Qed.

(** X2, GET by id of a card of the table.  On a table with unique ids,
    asking for the id of one of its rows is answered once, with status
    200 and that row, and leaves the table as it is. *)
Theorem X2_get_client_answers_with_the_card db c :
  NoDup (id <$> db) → c ∈ db →
  get_client db (Some (id c))
  = Outcome [Response 200 (OneClient (Some c))] db false.
Proof.
  intros HN Hc. apply list_elem_of_lookup in Hc as [k Hk].
  pose proof (get_by_id_lookup db k c HN Hk) as Hg.
  unfold get_client, get_client_calls.
  by rewrite (validateId_found _ _ _ Hg), Hg.
Qed.

Lemma X2_get_client_answers_with_the_card_witness :
  get_client board (Some 7)
  = Outcome [Response 200
               (OneClient (Some (Client 7 "Walker-Williamson" "" "in-progress" 2)))]
            board false.
Proof.
  apply (X2_get_client_answers_with_the_card board
           (Client 7 "Walker-Williamson" "" "in-progress" 2)).
  - exact board_ids_unique.
  - apply (bool_decide_unpack _). vm_compute. exact I.
Defined.

(** ** Listing by lane *)

Lemma is_lane_cases s :
  is_lane s = true → s = "backlog" ∨ s = "in-progress" ∨ s = "complete".
Proof.
  unfold is_lane. rewrite !orb_true_iff, !String.eqb_eq. tauto.
Qed.

Lemma lanes_partition db :
  Forall (fun c => is_lane (status c) = true) db →
  lane "backlog" db ++ lane "in-progress" db ++ lane "complete" db ≡ₚ db.
Proof.
  induction 1 as [|c db Hc _ IH]; [done|].
  destruct (is_lane_cases _ Hc) as [Hs|[Hs|Hs]].
  - rewrite (lane_cons_in "backlog"), !lane_cons_out by (rewrite ?Hs; done).
    simpl. by rewrite IH.
  - rewrite (lane_cons_in "in-progress"), !lane_cons_out by (rewrite ?Hs; done).
    cbn [app]. rewrite <- Permutation_middle. by rewrite IH.
  - rewrite (lane_cons_in "complete"), !lane_cons_out by (rewrite ?Hs; done).
    rewrite (assoc_L (++)), <- Permutation_middle, <- (assoc_L (++)).
    by rewrite IH.
Qed.

(** X3, the three lane listings partition the table.  When every row is
    in one of the three lanes, the listings filtered by [backlog],
    [in-progress] and [complete] are each answered 200 with the rows of
    that lane in table order, and together they hold every row of the
    unfiltered listing exactly once. *)
Theorem X3_lane_listings_partition_the_table db :
  Forall (fun c => is_lane (status c) = true) db →
  sent (list_clients db None) = [Response 200 (ClientList db)] ∧
  sent (list_clients db (Some "backlog"))
    = [Response 200 (ClientList (lane "backlog" db))] ∧
  sent (list_clients db (Some "in-progress"))
    = [Response 200 (ClientList (lane "in-progress" db))] ∧
  sent (list_clients db (Some "complete"))
    = [Response 200 (ClientList (lane "complete" db))] ∧
  lane "backlog" db ++ lane "in-progress" db ++ lane "complete" db ≡ₚ db.
Proof. intros HF. repeat split; try done. by apply lanes_partition. Qed.

Lemma X3_lane_listings_partition_the_table_witness :
  sent (list_clients board None) = [Response 200 (ClientList board)] ∧
  sent (list_clients board (Some "backlog"))
    = [Response 200 (ClientList (lane "backlog" board))] ∧
  sent (list_clients board (Some "in-progress"))
    = [Response 200 (ClientList (lane "in-progress" board))] ∧
  sent (list_clients board (Some "complete"))
    = [Response 200 (ClientList (lane "complete" board))] ∧
  lane "backlog" board ++ lane "in-progress" board ++ lane "complete" board
    ≡ₚ board.
Proof.
  apply (X3_lane_listings_partition_the_table board).
  apply (bool_decide_unpack _). vm_compute. exact I.
Defined.

(** ** What PUT never answers *)

Lemma not_priority_error_reply db i :
  Response 400 (ErrorBody (Some priority_invalid))
  ∉ invalid_id_reply (validateId db i).
Proof.
  unfold invalid_id_reply, validateId.
  destruct i as [z|]; [destruct (get_by_id db (Some z))|]; simpl;
    try apply not_elem_of_nil;
    intros Hin; by apply list_elem_of_singleton in Hin.
Qed.

Lemma part000_no_priority_error db i rq :
  wp (Part000.put_body db i rq)
     (fun r => Response 400 (ErrorBody (Some priority_invalid)) ∉ fst r)
     (fun rs _ => Response 400 (ErrorBody (Some priority_invalid)) ∉ rs).
Proof.
  unfold Part000.put_body, resolve_status, Part000.resolve_priority,
    Part000.shift, Part000.finish, Part000.maxPriority, respond. cbv zeta.
  repeat wp_step.
  all: try (rewrite validatePriority_valid in *; done).
  all: simpl fst; intros Hin; by apply list_elem_of_singleton in Hin.
Qed.

Lemma serverjs_no_priority_error db i rq :
  wp (ServerJs.put_body db i rq)
     (fun r => Response 400 (ErrorBody (Some priority_invalid)) ∉ fst r)
     (fun rs _ => Response 400 (ErrorBody (Some priority_invalid)) ∉ rs).
Proof.
  unfold ServerJs.put_body, resolve_status, ServerJs.shift,
    ServerJs.default_priority, ServerJs.finish, respond. cbv zeta.
  repeat wp_step.
  all: try (rewrite validatePriority_valid in *; done).
  all: try apply not_elem_of_nil.
  all: simpl fst; intros Hin; by apply list_elem_of_singleton in Hin.
Qed.

Lemma run_handler_sent first db m (bad : response) :
  bad ∉ first →
  wp m (fun r => bad ∉ fst r) (fun rs _ => bad ∉ rs) →
  bad ∉ sent (run_handler first db m).
Proof.
  intros Hf Hm.
  assert (∀ rs db', bad ∉ rs →
            bad ∉ sent (let '(out, raised) := send_all first rs in
                        Outcome out db' raised)) as Hsent.
  { intros rs db' Hrs Hin.
    assert (bad ∈ fst (send_all first rs)) as Hout
      by (by destruct (send_all first rs)).
    apply send_all_sent, elem_of_app in Hout as [?|?]; done. }
  destruct m as [[rs db']|rs db'|]; simpl in *; [by apply Hsent..|done].
Qed.

(** X4, PUT never answers that the priority is invalid.  Whatever the
    table, the id and the body, neither revision sends the reply
    [Invalid priority provided.]: the check before it never fails. *)
Theorem X4_put_never_rejects_a_priority :
  Forall (fun put => ∀ db i rq,
    Response 400 (ErrorBody (Some priority_invalid)) ∉ sent (put db i rq))
    revisions.
Proof.
  unfold revisions. constructor; [|constructor; [|constructor]]; intros db i rq.
  - apply run_handler_sent;
      [apply not_priority_error_reply | apply serverjs_no_priority_error].
  - apply run_handler_sent;
      [apply not_priority_error_reply | apply part000_no_priority_error].
Qed.

(** ** A status that is not a lane *)



(** ** What PUT writes *)

Lemma found_no_reply db i k :
  find_ref db i = Some k → invalid_id_reply (validateId db i) = [].
Proof.
  intros Hr. destruct (find_ref_Some _ _ _ Hr) as (o & _ & _ & Hg).
  by rewrite (validateId_found _ _ _ Hg).
Qed.

(** A revision that ends in an error has written nothing. *)
Lemma threw_table put db i rq :
  put ∈ revisions →
  threw (put db i rq) = true → table (put db i rq) = db.
Proof.
  intros Hp. destruct (valid (validateId db i)) eqn:Hv.
  - by_revision Hp.
    + unfold ServerJs.put, invalid_id_reply. rewrite Hv.
      by destruct (run_fresh db _ _ (serverjs_allowed db i rq)
                     (allowed_short db i rq)) as [[-> _]|(rs & t & -> & _)].
    + unfold Part000.put, invalid_id_reply. rewrite Hv.
      by destruct (run_fresh db _ _ (part000_allowed db i rq)
                     (allowed_short db i rq)) as [[-> _]|(rs & t & -> & _)].
  - by rewrite (put_invalid_id put db i rq Hp Hv).
Qed.

(** X6, PUT writes only what it answers with.  In both revisions the
    table is left as it was unless the handler answers with a list; then
    that list is the only reply and the table is the old one with the
    rows of the list written to it one by one. *)
Theorem X6_put_writes_only_what_it_returns :
  Forall (fun put => ∀ db i rq,
    table (put db i rq) = db ∨
    ∃ out, sent (put db i rq) = [Response 200 (ClientList out)] ∧
           table (put db i rq) = updateAllClients out db) revisions.
Proof.
  apply Forall_forall. intros put Hp db i rq.
  destruct (threw (put db i rq)) eqn:Ht.
  - left. by apply threw_table.
  - destruct (revisions_allowed put db i rq Hp Ht) as (rs & Hs & Ha).
    revert Ha. generalize (table (put db i rq)). intros t Ha.
    destruct Ha as [ | m | k Hr | k o heap u Hr Hk HF H1 H2 H3]; try by left.
    right. eexists. split; [|done].
    by rewrite Hs, (found_no_reply _ _ _ Hr).
Qed.

(** ** The size of a lane *)

Lemma lane_length_cons L c cs :
  length (lane L (c :: cs))
  = ((if decide (status c = L) then 1 else 0) + length (lane L cs))%nat.
Proof.
  destruct (decide (status c = L)).
  - by rewrite lane_cons_in.
  - by rewrite lane_cons_out.
Qed.

Lemma lane_length_same z L db out :
  Forall2 (fun c c' => id c ≠ z → status c' = status c) db out →
  z ∉ id <$> db →
  length (lane L out) = length (lane L db).
Proof.
  induction 1 as [|c c' db out Hc _ IH]; intros Hz; [done|].
  rewrite fmap_cons in Hz. apply not_elem_of_cons in Hz as [Hne Hz].
  rewrite !lane_length_cons, IH, Hc by (done || congruence). done.
Qed.

Lemma lane_length_moved z L db out :
  NoDup (id <$> db) →
  Forall2 (fun c c' => id c ≠ z → status c' = status c) db out →
  (length (lane L out) ≤ length (lane L db) + 1)%nat ∧
  (length (lane L db) ≤ length (lane L out) + 1)%nat.
Proof.
  intros HN HF. induction HF as [|c c' db out Hc HF IH]; [simpl; lia|].
  rewrite fmap_cons in HN. apply NoDup_cons in HN as [Hnotin HN].
  rewrite !lane_length_cons.
  destruct (decide (id c = z)) as [Hz|Hz].
  - rewrite (lane_length_same z L db out) by (done || congruence).
    repeat case_decide; lia.
  - rewrite (Hc Hz). specialize (IH HN). lia.
Qed.

(** X7, an update changes the size of a lane by one at most.  For a list
    that a revision answers with, on a table with unique ids, every
    lane holds as many cards as before, one more or one less. *)
Theorem X7_lane_sizes_change_by_one_at_most put db i rq out L :
  put ∈ revisions →
  NoDup (id <$> db) →
  Response 200 (ClientList out) ∈ sent (put db i rq) →
  (length (lane L out) ≤ length (lane L db) + 1)%nat ∧
  (length (lane L db) ≤ length (lane L out) + 1)%nat.
Proof.
  intros Hp HN Hin.
  destruct (returned_list_kept put db i rq out Hp HN Hin) as (o & _ & HF & _).
  apply (lane_length_moved (id o)); [done|].
  eapply Forall2_impl; [exact HF|]. by intros c c' (_ & _ & _ & Hs & _).
Qed.

Lemma X7_lane_sizes_change_by_one_at_most_witness :
  (length (lane "backlog" moved_board) ≤ length (lane "backlog" board) + 1)%nat ∧
  (length (lane "backlog" board) ≤ length (lane "backlog" moved_board) + 1)%nat.
Proof.
  apply (X7_lane_sizes_change_by_one_at_most Part000.put board (Some 2)
           (Request (Some "in-progress") None) moved_board "backlog").
  - exact part000_in_revisions.
  - exact board_ids_unique.
  - exact part000_moves_board.
Defined.

(** ** Running the persistence loop again *)

(** X8, running the persistence loop again repairs an interrupted one.
    For a list that a revision answers with, on a table with unique ids:
    from the table left by an interruption after any number of
    statements, a complete run of [updateAllClients] on the same list
    ends with the table equal to the list. *)
Theorem X8_persistence_can_be_run_again put db i rq out k :
  put ∈ revisions →
  NoDup (id <$> db) →
  Response 200 (ClientList out) ∈ sent (put db i rq) →
  updateAllClients out (persisted_after k out db) = out.
Proof.
  intros Hp HN Hin.
  destruct (returned_list_kept put db i rq out Hp HN Hin) as (o & _ & HF & _).
  pose proof (kept_same_row _ _ _ _ HF) as HR.
  rewrite (updateAllClients_take out db k HN HR).
  set (db2 := take k out ++ drop k db).
  assert (Forall2 same_row out db2) as HR2.
  { subst db2. rewrite <- (take_drop k out) at 1. apply Forall2_app.
    - apply Forall2_same_length_lookup. split; [done|].
      intros j c c' Hc Hc'. assert (c' = c) as -> by congruence.
      by unfold same_row.
    - by apply Forall2_drop. }
  assert (NoDup (id <$> db2)) as HN2.
  { by rewrite (same_row_ids _ _ HR2), <- (same_row_ids _ _ HR). }
  rewrite <- (firstn_all out) at 1.
  fold (persisted_after (length out) out db2).
  rewrite (updateAllClients_take out db2 _ HN2 HR2).
  rewrite firstn_all, (Forall2_length _ _ _ HR2), drop_all. apply app_nil_r.
Qed.

Lemma X8_persistence_can_be_run_again_witness :
  updateAllClients moved_board (persisted_after 2 moved_board board)
  = moved_board.
Proof.
  apply (X8_persistence_can_be_run_again Part000.put board (Some 2)
           (Request (Some "in-progress") None) moved_board 2).
  - exact part000_in_revisions.
  - exact board_ids_unique.
  - exact part000_moves_board.
Defined.

(** ** What the persistence loop can touch *)

Lemma updateClient_run_rows db c :
  Forall2 (fun row row' =>
             id row' = id row ∧ name row' = name row ∧
             description row' = description row ∧
             (id row ≠ id c → row' = row))
          db (updateClient_run db c).
Proof.
  unfold updateClient_run. apply Forall2_fmap_r.
  apply Forall2_same_length_lookup. split; [done|].
  intros j r r' Hr Hr'. assert (r' = r) as -> by congruence.
  simpl. case_bool_decide; simpl; repeat split; done.
Qed.

(** X9, the persistence loop keeps the cards.  Whatever list it is given
    and whatever the table, [updateAllClients] leaves a table with the
    same rows in number and order, each with its id, name and
    description, and leaves untouched every row whose id no client of
    the list carries. *)
Theorem X9_persistence_keeps_the_cards clients db :
  Forall2 (fun row row' =>
             id row' = id row ∧ name row' = name row ∧
             description row' = description row ∧
             (id row ∉ id <$> clients → row' = row))
          db (updateAllClients clients db).
Proof.
  unfold updateAllClients. revert db.
  induction clients as [|c clients IH]; intros db.
  - simpl. apply Forall2_same_length_lookup. split; [done|].
    intros j r r' Hr Hr'. assert (r' = r) as -> by congruence. done.
  - cbn [foldl]. specialize (IH (updateClient_run db c)).
    pose proof (updateClient_run_rows db c) as Hstep.
    apply Forall2_same_length_lookup. split.
    { rewrite (Forall2_length _ _ _ Hstep). by eapply Forall2_length. }
    intros j r r2 Hr Hr2.
    destruct (Forall2_lookup_l _ _ _ _ _ Hstep Hr) as (r1 & Hr1 & H1 & H2 & H3 & H4).
    destruct (Forall2_lookup_lr _ _ _ _ _ _ IH Hr1 Hr2) as (G1 & G2 & G3 & G4).
    repeat split; try congruence.
    intros Hn. rewrite fmap_cons in Hn. apply not_elem_of_cons in Hn as [Hc Hn].
    rewrite G4 by (by rewrite H1). by apply H4.
Qed.

(** ** Requests that ask for nothing new, in general *)

(** X10, part_000 answers a request for nothing new with the list as
    loaded.  When the body asks for the card's own lane, or none, and
    for the card's own rank, or none, part_000 answers once, 200 with the
    table as it is, writes nothing and raises no error. *)
Theorem X10_part000_answers_a_no_op_with_the_table db i rq o :
  get_by_id db i = Some o → is_lane (status o) = true →
  own_lane rq o → own_rank rq o →
  Part000.put db i rq = Outcome [Response 200 (ClientList db)] db false.
Proof. apply part000_no_op. Qed.

Lemma X10_part000_answers_a_no_op_with_the_table_witness :
  Part000.put board (Some 7) (Request (Some "in-progress") (Some 2))
  = Outcome [Response 200 (ClientList board)] board false.
Proof.
  apply (X10_part000_answers_a_no_op_with_the_table board (Some 7)
           (Request (Some "in-progress") (Some 2))
           (Client 7 "Walker-Williamson" "" "in-progress" 2)).
  - reflexivity.
  - reflexivity.
  - right. reflexivity.
  - right. reflexivity.
Defined.

(** X11, server.js does not answer a request for nothing new.  Under the
    same conditions server.js leaves the handler by a bare [return]: no
    reply is sent, nothing is written, no error is raised. *)
Theorem X11_serverjs_does_not_answer_a_no_op db i rq o :
  get_by_id db i = Some o → is_lane (status o) = true →
  own_lane rq o → own_rank rq o →
  ServerJs.put db i rq = Outcome [] db false.
Proof. apply serverjs_no_op. Qed.

Lemma X11_serverjs_does_not_answer_a_no_op_witness :
  ServerJs.put board (Some 7) (Request (Some "in-progress") (Some 2))
  = Outcome [] board false.
Proof.
  apply (X11_serverjs_does_not_answer_a_no_op board (Some 7)
           (Request (Some "in-progress") (Some 2))
           (Client 7 "Walker-Williamson" "" "in-progress" 2)).
  - reflexivity.
  - reflexivity.
  - right. reflexivity.
  - right. reflexivity.
Defined.

(** X12, server.js ignores every request without a rank.  When the body
    has no priority, or priority 0, and the card's stored status is not
    empty, server.js sends no reply and writes nothing, whatever lane
    the body asks for: the move to another lane is not made. *)
Theorem X12_serverjs_ignores_a_request_without_rank db i rq o :
  get_by_id db i = Some o →
  truthy (Str (status o)) = true →
  (truthy_status (req_status rq) = true → is_lane (dest_lane rq o) = true) →
  truthy_priority (req_priority rq) = false →
  ServerJs.put db i rq = Outcome [] db false.
Proof. apply serverjs_missing_rank. Qed.

Lemma X12_serverjs_ignores_a_request_without_rank_witness :
  ServerJs.put board (Some 7) (Request (Some "complete") (Some 0))
  = Outcome [] board false.
Proof.
  apply (X12_serverjs_ignores_a_request_without_rank board (Some 7)
           (Request (Some "complete") (Some 0))
           (Client 7 "Walker-Williamson" "" "in-progress" 2));
    reflexivity.
Defined.

(** ** Same-lane moves, in general *)

(** X13, server.js raises the whole lane on a same-lane move.  When a
    card of rank 2 or more is asked to another rank of its own lane,
    server.js answers with the table in which every card of that lane is
    one rank higher and the moved card has the rank asked, whatever
    that rank. *)
Theorem X13_serverjs_same_lane_move_raises_the_lane db i rq o p :
  get_by_id db i = Some o → is_lane (status o) = true → own_lane rq o →
  req_priority rq = Some p → p ≠ 0 → p ≠ priority o → 2 ≤ priority o →
  sent (ServerJs.put db i rq)
  = [Response 200 (ClientList
       (replace_by_id i (set_priority o p) (raise (status o) <$> db)))].
Proof. apply serverjs_same_lane_move. Qed.

Lemma X13_serverjs_same_lane_move_raises_the_lane_witness :
  sent (ServerJs.put board (Some 4) (Request None (Some 1)))
  = [Response 200 (ClientList
       (replace_by_id (Some 4)
          (set_priority (Client 4 "Kohler Group" "" "backlog" 4) 1)
          (raise "backlog" <$> board)))].
Proof.
  apply (X13_serverjs_same_lane_move_raises_the_lane board (Some 4)
           (Request None (Some 1)) (Client 4 "Kohler Group" "" "backlog" 4) 1).
  - reflexivity.
  - reflexivity.
  - left. reflexivity.
  - reflexivity.
  - discriminate.
  - discriminate.
  - vm_compute. discriminate.
Defined.

(** X14, part_000 raises the whole lane on a same-lane move.  Under the
    same conditions part_000 answers with the same table, the moved card
    having the rank asked capped by the size of the lane plus one. *)
Theorem X14_part000_same_lane_move_raises_the_lane db i rq o p :
  get_by_id db i = Some o → is_lane (status o) = true → own_lane rq o →
  req_priority rq = Some p → p ≠ 0 → p ≠ priority o → 2 ≤ priority o →
  sent (Part000.put db i rq)
  = [Response 200 (ClientList
       (replace_by_id i
          (set_priority o (Z.min p (Part000.maxPriority db (status o))))
          (raise (status o) <$> db)))].
Proof. apply part000_same_lane_move. Qed.

Lemma X14_part000_same_lane_move_raises_the_lane_witness :
  sent (Part000.put board (Some 4) (Request None (Some 99)))
  = [Response 200 (ClientList
       (replace_by_id (Some 4)
          (set_priority (Client 4 "Kohler Group" "" "backlog" 4)
             (Z.min 99 (Part000.maxPriority board "backlog")))
          (raise "backlog" <$> board)))].
Proof.
  apply (X14_part000_same_lane_move_raises_the_lane board (Some 4)
           (Request None (Some 99)) (Client 4 "Kohler Group" "" "backlog" 4) 99).
  - reflexivity.
  - reflexivity.
  - left. reflexivity.
  - reflexivity.
  - discriminate.
  - discriminate.
  - vm_compute. discriminate.
Defined.

(** ** Ranks beyond the lane, in general *)

(** A request for the card's own lane and own rank, the rank not 0, is
    answered with the list as loaded, whatever the stored lane. *)
Lemma part000_own_place db i rq o p :
  get_by_id db i = Some o →
  (truthy_status (req_status rq) = true → is_lane (dest_lane rq o) = true) →
  req_priority rq = Some p → p ≠ 0 →
  dest_lane rq o = status o → priority o = p →
  Part000.put db i rq = Outcome [Response 200 (ClientList db)] db false.
Proof.
  intros Hfound Hvalid Hp Hp0 Hown Hrank.
  destruct (get_by_id_find_ref _ _ _ Hfound) as (k & Hr & Hk & Hi).
  unfold Part000.put, Part000.put_body. cbv zeta.
  rewrite (validateId_found _ _ _ Hfound).
  rewrite (resolve_status_dest db i rq o k) by done. cbn [bind].
  unfold Part000.resolve_priority. rewrite Hp, truthy_priority_nonzero by done.
  change (default 0 (Some p)) with p. cbn [bind negb].
  rewrite validatePriority_valid. cbn [valid negb].
  unfold Part000.shift.
  rewrite !(field_found _ db i k o Hr Hk). cbn [bind].
  rewrite Hown, String.eqb_refl. cbn [bind].
  by rewrite Hrank, Z.eqb_refl.
Qed.

(** X15, part_000 caps a rank beyond the lane, except for a card asked
    to its own place.  When the rank asked exceeds the number of cards of
    the requested lane plus one, part_000 does not refuse the request.
    If the lane and the rank asked are the card's own, it answers with
    the table as loaded and writes nothing: the card keeps its rank
    beyond the lane.  Otherwise it answers with a list in which the moved
    card is in the requested lane at that number plus one. *)
Theorem X15_part000_caps_a_rank_beyond_the_lane db i rq o p :
  get_by_id db i = Some o →
  (truthy_status (req_status rq) = true → is_lane (dest_lane rq o) = true) →
  req_priority rq = Some p →
  Part000.maxPriority db (dest_lane rq o) < p →
  (dest_lane rq o = status o ∧ priority o = p →
   Part000.put db i rq = Outcome [Response 200 (ClientList db)] db false) ∧
  (¬ (dest_lane rq o = status o ∧ priority o = p) →
   ∃ k out c,
     find_ref db i = Some k ∧
     sent (Part000.put db i rq) = [Response 200 (ClientList out)] ∧
     out !! k = Some c ∧ id c = id o ∧
     status c = dest_lane rq o ∧
     priority c = Part000.maxPriority db (dest_lane rq o)).
Proof.
  intros Hfound Hvalid Hp Hbig. split.
  - intros [Hown Hrank].
    apply (part000_own_place db i rq o p); try done.
    unfold Part000.maxPriority in Hbig. lia.
  - intros Hnot. apply (part000_clamps db i rq o p); try done.
    intros Hown Hrank. by apply Hnot.
Qed.

Lemma X15_part000_caps_a_rank_beyond_the_lane_witness :
  let rq := Request (Some "in-progress") (Some 99) in
  let o := Client 2 "Boehm and Sons" "" "backlog" 2 in
  (dest_lane rq o = status o ∧ priority o = 99 →
   Part000.put board (Some 2) rq
   = Outcome [Response 200 (ClientList board)] board false) ∧
  (¬ (dest_lane rq o = status o ∧ priority o = 99) →
   ∃ k out c,
     find_ref board (Some 2) = Some k ∧
     sent (Part000.put board (Some 2) rq) = [Response 200 (ClientList out)] ∧
     out !! k = Some c ∧ id c = id o ∧
     status c = dest_lane rq o ∧
     priority c = Part000.maxPriority board (dest_lane rq o)).
Proof.
  apply (X15_part000_caps_a_rank_beyond_the_lane board (Some 2)
           (Request (Some "in-progress") (Some 99))
           (Client 2 "Boehm and Sons" "" "backlog" 2) 99).
  - reflexivity.
  - reflexivity.
  - reflexivity.
  - vm_compute. reflexivity.
Defined.

(** ** Cross-lane moves on dense lanes *)

(** X16, server.js on a cross-lane move with a rank.  On a table with
    unique ids in which the lane left is dense, server.js answers with a
    list in which the moved card is in the lane asked at the rank asked,
    every other card of the lane left with the moved card's rank or more
    is one rank lower, and every card of the lane entered with the rank
    asked or more is one rank higher. *)
Theorem X16_serverjs_cross_lane_move_shifts_both_lanes db i rq o k s p :
  find_ref db i = Some k → db !! k = Some o →
  req_status rq = Some s → is_lane s = true → status o ≠ s →
  req_priority rq = Some p → p ≠ 0 →
  NoDup (id <$> db) → dense (status o) db →
  ∃ out,
    sent (ServerJs.put db i rq) = [Response 200 (ClientList out)] ∧
    out !! k = Some (Client (id o) (name o) (description o) s p) ∧
    ∀ j c, j ≠ k → db !! j = Some c →
      (status c = status o → priority o ≤ priority c →
       out !! j = Some (set_priority c (priority c - 1))) ∧
      (status c = s → p ≤ priority c →
       out !! j = Some (set_priority c (priority c + 1))).
Proof.
  intros Hr Hk Hs Hlane Hother Hp Hp0 HN HD.
  apply (serverjs_cross_lane_effect db i rq o k s); try done.
  intros j c Hj Hc Hst Heq. apply Hj.
  by eapply (dense_ranks_differ (status o) db).
Qed.

Lemma X16_serverjs_cross_lane_move_shifts_both_lanes_witness :
  ∃ out,
    sent (ServerJs.put board (Some 2) (Request (Some "in-progress") (Some 2)))
      = [Response 200 (ClientList out)] ∧
    out !! 1%nat = Some (Client 2 "Boehm and Sons" "" "in-progress" 2) ∧
    ∀ j c, j ≠ 1%nat → board !! j = Some c →
      (status c = "backlog" → 2 ≤ priority c →
       out !! j = Some (set_priority c (priority c - 1))) ∧
      (status c = "in-progress" → 2 ≤ priority c →
       out !! j = Some (set_priority c (priority c + 1))).
Proof.
  apply (X16_serverjs_cross_lane_move_shifts_both_lanes board (Some 2)
           (Request (Some "in-progress") (Some 2))
           (Client 2 "Boehm and Sons" "" "backlog" 2) 1 "in-progress" 2).
  - reflexivity.
  - reflexivity.
  - reflexivity.
  - reflexivity.
  - discriminate.
  - reflexivity.
  - discriminate.
  - exact board_ids_unique.
  - unfold dense. apply (bool_decide_unpack _). vm_compute. exact I.
Defined.

(** X17, part_000 on a cross-lane move, with or without a rank.  On a
    table with unique ids in which the lane entered is dense, part_000
    answers with a list in which the moved card is in the lane asked, at
    the rank asked or, without one, at the bottom, capped by the size of
    the lane plus one; every other card of the lane left with the moved
    card's rank or more is one rank lower, and every card of the lane
    entered with the landing rank or more is one rank higher. *)
Theorem X17_part000_cross_lane_move_shifts_both_lanes db i rq o k s :
  find_ref db i = Some k → db !! k = Some o →
  req_status rq = Some s → is_lane s = true → status o ≠ s →
  NoDup (id <$> db) → dense s db →
  let destRank := Z.min (rank_or_bottom db rq s) (Part000.maxPriority db s) in
  ∃ out,
    sent (Part000.put db i rq) = [Response 200 (ClientList out)] ∧
    out !! k = Some (Client (id o) (name o) (description o) s destRank) ∧
    ∀ j c, j ≠ k → db !! j = Some c →
      (status c = status o → priority o ≤ priority c →
       out !! j = Some (set_priority c (priority c - 1))) ∧
      (status c = s → destRank ≤ priority c →
       out !! j = Some (set_priority c (priority c + 1))).
Proof.
  intros Hr Hk Hs Hlane Hother HN HD.
  apply (part000_cross_lane_effect db i rq o k s); try done.
  intros c Hc. pose proof (dense_rank_bounds s db c HD Hc) as Hb.
  unfold Part000.maxPriority. fold (lane s db). lia.
Qed.

Lemma X17_part000_cross_lane_move_shifts_both_lanes_witness :
  ∃ out,
    sent (Part000.put board (Some 2) (Request (Some "in-progress") None))
      = [Response 200 (ClientList out)] ∧
    out !! 1%nat
      = Some (Client 2 "Boehm and Sons" "" "in-progress"
                (Z.min (rank_or_bottom board (Request (Some "in-progress") None)
                          "in-progress")
                       (Part000.maxPriority board "in-progress"))) ∧
    ∀ j c, j ≠ 1%nat → board !! j = Some c →
      (status c = "backlog" → 2 ≤ priority c →
       out !! j = Some (set_priority c (priority c - 1))) ∧
      (status c = "in-progress" →
       Z.min (rank_or_bottom board (Request (Some "in-progress") None)
                "in-progress")
             (Part000.maxPriority board "in-progress") ≤ priority c →
       out !! j = Some (set_priority c (priority c + 1))).
Proof.
  apply (X17_part000_cross_lane_move_shifts_both_lanes board (Some 2)
           (Request (Some "in-progress") None)
           (Client 2 "Boehm and Sons" "" "backlog" 2) 1 "in-progress").
  - reflexivity.
  - reflexivity.
  - reflexivity.
  - reflexivity.
  - discriminate.
  - exact board_ids_unique.
  - unfold dense. apply (bool_decide_unpack _). vm_compute. exact I.
Defined.

(** X18, part_000 lowers the card ranked just above the moved one when it
    comes later in the table.  On a cross-lane move, a card of the lane
    left that comes after the moved card in the table and is ranked one
    above it, which should keep its rank, is given a rank one lower: the
    loop has lowered the moved card's own rank before comparing. *)
Theorem X18_part000_lowers_the_card_above_when_behind db i rq o k s j c :
  find_ref db i = Some k → db !! k = Some o →
  req_status rq = Some s → is_lane s = true → status o ≠ s →
  NoDup (id <$> db) →
  (k < j)%nat → db !! j = Some c →
  status c = status o → priority c = priority o - 1 →
  ∃ out,
    sent (Part000.put db i rq) = [Response 200 (ClientList out)] ∧
    out !! j = Some (set_priority c (priority o - 2)).
Proof.
  intros Hr Hk Hs Hlane Hother HN Hkj Hc Hst Hrank.
  eexists. split.
  { apply (part000_cross_lane_move db i rq o k s); done. }
  rewrite (replace_by_id_other db i o k Hr Hk _ _ j c)
    by (done || lia || apply cross_id).
  f_equal. rewrite decide_False by lia.
  rewrite cross_vacated by (done || lia).
  f_equal. lia.
Qed.

Lemma X18_part000_lowers_the_card_above_when_behind_witness :
  ∃ out,
    sent (Part000.put unordered_board (Some 1) (Request (Some "in-progress") None))
      = [Response 200 (ClientList out)] ∧
    out !! 1%nat
      = Some (set_priority (Client 2 "Boehm and Sons" "" "backlog" 1) (2 - 2)).
Proof.
  apply (X18_part000_lowers_the_card_above_when_behind unordered_board (Some 1)
           (Request (Some "in-progress") None)
           (Client 1 "Nolan LLC" "" "backlog" 2) 0 "in-progress" 1
           (Client 2 "Boehm and Sons" "" "backlog" 1)).
  - reflexivity.
  - reflexivity.
  - reflexivity.
  - reflexivity.
  - discriminate.
  - apply (bool_decide_unpack _). vm_compute. exact I.
  - apply Nat.lt_0_1.
  - reflexivity.
  - reflexivity.
  - reflexivity.
Defined.

Lemma dense_all_density (db db' : list client) :
  (∀ L, dense L db → dense L db') → density db → density db'.
Proof.
  intros H HD. unfold density in *. eapply Forall_impl; [exact HD|].
  intros L. apply H.
Qed.

(** X19, server.js keeps density on a cross-lane move with a rank in
    range.  When a card is moved to another of the three lanes at a rank
    between 1 and the size of that lane plus one, on a table with unique
    ids, server.js answers with the list it has written to the table, and
    every lane that was dense is dense in it. *)
Theorem X19_serverjs_cross_lane_move_keeps_density db i rq o k s p :
  find_ref db i = Some k → db !! k = Some o →
  req_status rq = Some s → is_lane s = true → status o ≠ s →
  NoDup (id <$> db) →
  req_priority rq = Some p →
  1 ≤ p ≤ Z.of_nat (length (lane s db)) + 1 →
  sent (ServerJs.put db i rq)
    = [Response 200 (ClientList (table (ServerJs.put db i rq)))] ∧
  (∀ L, dense L db → dense L (table (ServerJs.put db i rq))) ∧
  (density db → density (table (ServerJs.put db i rq))).
Proof.
  intros Hr Hk Hs Hlane Hother HN Hp Hrange.
  destruct (serverjs_moves_across db i rq o k s Hr Hk Hs Hlane Hother HN p Hp)
    as [Hsent Htable]; [lia|].
  rewrite Htable, Hsent.
  assert (∀ L, dense L db → dense L (moved_across db o s p p)) as HD.
  { intros L HL.
    replace p with (Z.min p (Part000.maxPriority db s)) at 2
      by (unfold Part000.maxPriority; fold (lane s db); lia).
    apply (moved_across_dense db k); try done. lia. }
  split; [done|]. split; [done|]. by apply dense_all_density.
Qed.

Lemma X19_serverjs_cross_lane_move_keeps_density_witness :
  let r := ServerJs.put board (Some 2) (Request (Some "in-progress") (Some 2)) in
  sent r = [Response 200 (ClientList (table r))] ∧
  (∀ L, dense L board → dense L (table r)) ∧
  (density board → density (table r)).
Proof.
  apply (X19_serverjs_cross_lane_move_keeps_density board (Some 2)
           (Request (Some "in-progress") (Some 2))
           (Client 2 "Boehm and Sons" "" "backlog" 2) 1 "in-progress" 2).
  - reflexivity.
  - reflexivity.
  - reflexivity.
  - reflexivity.
  - discriminate.
  - exact board_ids_unique.
  - reflexivity.
  - vm_compute. split; discriminate.
Defined.

(** X20, part_000 keeps density on a cross-lane move when no card is
    lowered twice.  When a card is moved to another of the three lanes,
    with no rank or with a rank of 1 or more, on a table with unique ids
    in which the card's lane is dense and the card ranked just above it
    does not come after it, part_000 answers with the list it has written
    to the table, and every lane that was dense is dense in it. *)
Theorem X20_part000_cross_lane_move_keeps_density db i rq o k s :
  find_ref db i = Some k → db !! k = Some o →
  req_status rq = Some s → is_lane s = true → status o ≠ s →
  NoDup (id <$> db) →
  1 ≤ rank_or_bottom db rq s →
  dense (status o) db → none_behind_above db k o →
  sent (Part000.put db i rq)
    = [Response 200 (ClientList (table (Part000.put db i rq)))] ∧
  (∀ L, dense L db → dense L (table (Part000.put db i rq))) ∧
  (density db → density (table (Part000.put db i rq))).
Proof.
  intros Hr Hk Hs Hlane Hother HN Hp HDo Hbehind.
  destruct (part000_moves_across db i rq o k s Hr Hk Hs Hlane Hother HN
              HDo Hbehind) as [Hsent Htable].
  rewrite Htable, Hsent.
  assert (∀ L, dense L db →
               dense L (moved_across db o s (rank_or_bottom db rq s)
                          (Z.min (rank_or_bottom db rq s)
                                 (Part000.maxPriority db s)))) as HD.
  { intros L HL. by apply (moved_across_dense db k). }
  split; [done|]. split; [done|]. by apply dense_all_density.
Qed.

Lemma X20_part000_cross_lane_move_keeps_density_witness :
  let r := Part000.put board (Some 2) (Request (Some "in-progress") None) in
  sent r = [Response 200 (ClientList (table r))] ∧
  (∀ L, dense L board → dense L (table r)) ∧
  (density board → density (table r)).
Proof.
  apply (X20_part000_cross_lane_move_keeps_density board (Some 2)
           (Request (Some "in-progress") None)
           (Client 2 "Boehm and Sons" "" "backlog" 2) 1 "in-progress").
  - reflexivity.
  - reflexivity.
  - reflexivity.
  - reflexivity.
  - discriminate.
  - exact board_ids_unique.
  - vm_compute. discriminate.
  - unfold dense. apply (bool_decide_unpack _). vm_compute. exact I.
  - unfold none_behind_above. apply (bool_decide_unpack _). vm_compute. exact I.
Defined.

(** ** Same-lane moves and density *)

Lemma range_without op rest n :
  op :: rest ≡ₚ Z.of_nat <$> seq 1 n →
  1 ≤ op ≤ Z.of_nat n ∧ NoDup rest ∧
  ∀ r, r ∈ rest ↔ 1 ≤ r ≤ Z.of_nat n ∧ r ≠ op.
Proof.
  intros HP.
  assert (NoDup (op :: rest)) as HN by (rewrite HP; apply NoDup_range).
  apply NoDup_cons in HN as [Hop HN].
  split; [|split; [done|]].
  - apply elem_of_range. rewrite <- HP. by left.
  - intros r. split.
    + intros Hr. split; [|by intros ->].
      apply elem_of_range. rewrite <- HP. by right.
    + intros [Hr Hne]. apply elem_of_range in Hr. rewrite <- HP in Hr.
      apply elem_of_cons in Hr as [?|?]; done.
Qed.

(** Raising every other rank of 1 .. n by one and putting the moved card
    at [q] gives 1 .. n again only if the card was last and goes first. *)
Lemma raised_range_iff op q rest n :
  op :: rest ≡ₚ Z.of_nat <$> seq 1 n →
  (q :: (Z.succ <$> rest) ≡ₚ Z.of_nat <$> seq 1 n)
  ↔ op = Z.of_nat n ∧ q = 1.
Proof.
  intros HP. destruct (range_without op rest n HP) as (Hop & HN & Hrest).
  assert (∀ x, x ∈ Z.succ <$> rest
               ↔ 2 ≤ x ≤ Z.of_nat n + 1 ∧ x ≠ op + 1) as Hsucc.
  { intros x. rewrite list_elem_of_fmap. split.
    - intros (r & -> & Hr%Hrest). lia.
    - intros Hx. exists (x - 1). split; [lia|]. apply Hrest. lia. }
  split.
  - intros HQ.
    assert (∀ x, x ∈ q :: (Z.succ <$> rest) ↔ 1 ≤ x ≤ Z.of_nat n) as Hall.
    { intros x. by rewrite HQ, elem_of_range. }
    assert (op = Z.of_nat n) as Hlast.
    { destruct (decide (op = Z.of_nat n)) as [|Hne]; [done|]. exfalso.
      assert (Z.of_nat n + 1 ∈ q :: (Z.succ <$> rest)) as Hin.
      { right. apply Hsucc. lia. }
      apply Hall in Hin. lia. }
    split; [done|].
    assert (1 ∈ q :: (Z.succ <$> rest)) as Hin by (apply Hall; lia).
    apply elem_of_cons in Hin as [->|Hin%Hsucc]; [done|lia].
  - intros [-> ->]. apply NoDup_Permutation.
    + apply NoDup_cons. split.
      * intros Hin%Hsucc. lia.
      * apply NoDup_fmap_2_strong; [|done]. intros x y _ _. lia.
    + apply NoDup_range.
    + intros x. rewrite elem_of_cons, Hsucc, elem_of_range. lia.
Qed.

Lemma replace_by_id_Permutation (g : client → client) db k o u :
  (∀ c, id (g c) = id c) →
  NoDup (id <$> db) → db !! k = Some o →
  replace_by_id (Some (id o)) u (g <$> db) ≡ₚ u :: (g <$> delete k db).
Proof.
  intros Hg HN Hk. unfold replace_by_id.
  rewrite <- list_fmap_compose.
  rewrite (delete_Permutation db k o Hk) at 1.
  rewrite (delete_Permutation db k o Hk), fmap_cons in HN.
  apply NoDup_cons in HN as [Hnotin _].
  rewrite fmap_cons. simpl.
  rewrite bool_decide_eq_true_2 by (by rewrite Hg).
  apply Permutation_skip.
  assert (∀ A (x y : list A), x = y → x ≡ₚ y) as Heq by (by intros ??? ->).
  apply Heq, Forall_fmap_ext, Forall_forall. intros c Hc. simpl.
  rewrite bool_decide_eq_false_2; [done|].
  rewrite Hg. intros [= Hid].
  apply Hnotin. rewrite <- Hid. apply list_elem_of_fmap. by exists c.
Qed.

Lemma ranks_raise L cs : ranks L (raise L <$> cs) = Z.succ <$> ranks L cs.
Proof.
  unfold ranks. rewrite lane_fmap by (intros c; apply raise_card).
  rewrite <- !list_fmap_compose.
  apply Forall_fmap_ext, Forall_forall. intros c Hc.
  apply list_elem_of_filter in Hc as [Hc _]. simpl. unfold raise.
  assert (String.eqb (status c) L = true) as -> by by apply String.eqb_eq.
  simpl. lia.
Qed.

(** The lane of a card after a same-lane move that raised the lane and
    put the card at rank [q]. *)
Lemma raised_lane_dense_iff db k o q :
  NoDup (id <$> db) → db !! k = Some o → dense (status o) db →
  dense (status o)
    (replace_by_id (Some (id o)) (set_priority o q) (raise (status o) <$> db))
  ↔ priority o = Z.of_nat (length (lane (status o) db)) ∧ q = 1.
Proof.
  intros HN Hk HD.
  assert (length (lane (status o) db)
          = S (length (lane (status o) (delete k db)))) as Hlen.
  { unfold lane. rewrite (delete_Permutation db k o Hk) at 1.
    by rewrite filter_cons_True. }
  apply (dense_Permutation _ _ _ (delete_Permutation db k o Hk)) in HD.
  unfold dense, ranks in HD. rewrite lane_cons_in in HD by done.
  rewrite fmap_cons in HD. cbn [length] in HD.
  fold (ranks (status o) (delete k db)) in HD.
  rewrite Hlen.
  rewrite <- (raised_range_iff (priority o) q _ _ HD).
  assert (∀ cs cs', cs ≡ₚ cs' → dense (status o) cs ↔ dense (status o) cs')
    as Hperm.
  { intros cs cs' HP. split; apply dense_Permutation; [done|by symmetry]. }
  rewrite (Hperm _ _ (replace_by_id_Permutation (raise (status o)) db k o
                        (set_priority o q)
                        (fun c => proj1 (raise_card (status o) c)) HN Hk)).
  unfold dense. unfold ranks at 1.
  rewrite lane_cons_in by done. rewrite fmap_cons. cbn [length].
  fold (ranks (status o) (raise (status o) <$> delete k db)).
  rewrite ranks_raise.
  rewrite lane_fmap, length_fmap by (intros c; apply raise_card).
  done.
Qed.

(** X21, a same-lane move keeps the lane dense only for the last card
    moved to the top.  When a card of rank 2 or more is asked to another
    rank of its own lane, on a table with unique ids in which that lane is
    dense, both revisions leave a table in which the lane is dense if
    and only if the card was the last of the lane and the rank asked
    is 1. *)
Theorem X21_same_lane_move_keeps_density_only_from_last_to_first
    db i rq o p :
  get_by_id db i = Some o → is_lane (status o) = true → own_lane rq o →
  req_priority rq = Some p → p ≠ 0 → p ≠ priority o → 2 ≤ priority o →
  NoDup (id <$> db) → dense (status o) db →
  Forall (fun put =>
            dense (status o) (table (put db i rq))
            ↔ priority o = Z.of_nat (length (lane (status o) db)) ∧ p = 1)
         revisions.
Proof.
  intros Hfound Hlane Hown Hp Hp0 Hne Ho HN HD.
  destruct (get_by_id_find_ref _ _ _ Hfound) as (k & Hr & Hk & Hi).
  assert (1 ≤ priority o ≤ Z.of_nat (length (lane (status o) db))) as Hbound.
  { apply (dense_rank_bounds _ _ _ HD). apply list_elem_of_filter.
    split; [done|]. by eapply list_elem_of_lookup_2. }
  unfold revisions. apply Forall_cons_2; [|apply Forall_cons_2; [|constructor]].
  - assert (table (ServerJs.put db i rq)
            = replace_by_id i (set_priority o p) (raise (status o) <$> db))
      as ->.
    { apply returned_list_persisted;
        [exact serverjs_in_revisions|done|].
      rewrite (serverjs_same_lane_move db i rq o p) by done. by left. }
    rewrite Hi. by apply (raised_lane_dense_iff db k).
  - assert (table (Part000.put db i rq)
            = replace_by_id i
                (set_priority o (Z.min p (Part000.maxPriority db (status o))))
                (raise (status o) <$> db)) as ->.
    { apply returned_list_persisted;
        [exact part000_in_revisions|done|].
      rewrite (part000_same_lane_move db i rq o p) by done. by left. }
    rewrite Hi, (raised_lane_dense_iff db k) by done.
    unfold Part000.maxPriority. fold (lane (status o) db). lia.
Qed.

Lemma X21_same_lane_move_keeps_density_only_from_last_to_first_witness :
  Forall (fun put =>
            dense "backlog" (table (put board (Some 4) (Request None (Some 1))))
            ↔ 4 = Z.of_nat (length (lane "backlog" board)) ∧ 1 = 1)
         revisions.
Proof.
  apply (X21_same_lane_move_keeps_density_only_from_last_to_first board
           (Some 4) (Request None (Some 1))
           (Client 4 "Kohler Group" "" "backlog" 4) 1).
  - reflexivity.
  - reflexivity.
  - left. reflexivity.
  - reflexivity.
  - discriminate.
  - discriminate.
  - vm_compute. discriminate.
  - exact board_ids_unique.
  - unfold dense. apply (bool_decide_unpack _). vm_compute. exact I.
Defined.

(** ** Reading a card back after a move *)

Lemma get_client_lookup db k c :
  NoDup (id <$> db) → db !! k = Some c →
  get_client db (Some (id c))
  = Outcome [Response 200 (OneClient (Some c))] db false.
Proof.
  intros HN Hk. pose proof (get_by_id_lookup db k c HN Hk) as Hg.
  unfold get_client, get_client_calls.
  by rewrite (validateId_found _ _ _ Hg), Hg.
Qed.

(** After an answer with the list [out] whose row [k] is [u], GET by id
    on the table left answers with [u]. *)
Lemma get_after_put put db i rq out k o u :
  put ∈ revisions → NoDup (id <$> db) →
  find_ref db i = Some k → db !! k = Some o →
  sent (put db i rq) = [Response 200 (ClientList out)] →
  out !! k = Some u → id u = id o →
  get_client (table (put db i rq)) i
  = Outcome [Response 200 (OneClient (Some u))] (table (put db i rq)) false.
Proof.
  intros Hp HN Hr Hk Hsent Hu Hid.
  assert (Response 200 (ClientList out) ∈ sent (put db i rq)) as Hin
    by (rewrite Hsent; left).
  rewrite (returned_list_persisted put db i rq out Hp HN Hin).
  destruct (returned_list_kept put db i rq out Hp HN Hin) as (o' & _ & HF & _).
  pose proof (kept_same_row _ _ _ _ HF) as HR.
  destruct (find_ref_Some _ _ _ Hr) as (o2 & Hk2 & -> & _).
  assert (o2 = o) as -> by congruence.
  rewrite <- Hid. apply (get_client_lookup out k u); [|done].
  by rewrite <- (same_row_ids _ _ HR).
Qed.

(** X22, in part_000 a card moved to another lane is read back there.
    After part_000 has answered a cross-lane move, on a table with
    unique ids, GET by id on the table it left answers once, 200 with
    the card under its id, name and description, in the lane asked, at
    the rank asked or defaulted, capped by the size of that lane plus
    one. *)
Theorem X22_part000_moved_card_is_read_back db i rq o k s :
  find_ref db i = Some k → db !! k = Some o →
  req_status rq = Some s → is_lane s = true → status o ≠ s →
  NoDup (id <$> db) →
  get_client (table (Part000.put db i rq)) i
  = Outcome
      [Response 200 (OneClient (Some
         (Client (id o) (name o) (description o) s
            (Z.min (rank_or_bottom db rq s) (Part000.maxPriority db s)))))]
      (table (Part000.put db i rq)) false.
Proof.
  intros Hr Hk Hs Hlane Hother HN.
  pose proof (part000_cross_lane_move db i rq o k s Hr Hk Hs Hlane Hother)
    as Hsent.
  eapply (get_after_put Part000.put db i rq _ k o);
    [apply part000_in_revisions|done|done|done|exact Hsent| |done].
  destruct (find_ref_Some _ _ _ Hr) as (o2 & Hk2 & -> & _).
  eapply replace_by_id_lookup.
  - by rewrite list_lookup_imap, Hk.
  - rewrite cross_id. congruence.
Qed.

Lemma X22_part000_moved_card_is_read_back_witness :
  get_client (table (Part000.put board (Some 2) (Request (Some "in-progress") None)))
             (Some 2)
  = Outcome
      [Response 200 (OneClient (Some
         (Client 2 "Boehm and Sons" "" "in-progress"
            (Z.min (rank_or_bottom board (Request (Some "in-progress") None)
                      "in-progress")
                   (Part000.maxPriority board "in-progress")))))]
      (table (Part000.put board (Some 2) (Request (Some "in-progress") None)))
      false.
Proof.
  apply (X22_part000_moved_card_is_read_back board (Some 2)
           (Request (Some "in-progress") None)
           (Client 2 "Boehm and Sons" "" "backlog" 2) 1 "in-progress").
  - reflexivity.
  - reflexivity.
  - reflexivity.
  - reflexivity.
  - discriminate.
  - exact board_ids_unique.
Defined.

(** X23, in server.js a card moved to another lane with a rank is read
    back there.  After server.js has answered a cross-lane move with a
    rank other than 0, on a table with unique ids, GET by id on the
    table it left answers once, 200 with the card in the lane asked at
    exactly the rank asked, be it negative or beyond the lane. *)
Theorem X23_serverjs_moved_card_is_read_back db i rq o k s p :
  find_ref db i = Some k → db !! k = Some o →
  req_status rq = Some s → is_lane s = true → status o ≠ s →
  req_priority rq = Some p → p ≠ 0 →
  NoDup (id <$> db) →
  get_client (table (ServerJs.put db i rq)) i
  = Outcome
      [Response 200 (OneClient (Some
         (Client (id o) (name o) (description o) s p)))]
      (table (ServerJs.put db i rq)) false.
Proof.
  intros Hr Hk Hs Hlane Hother Hp Hp0 HN.
  pose proof (serverjs_cross_lane_move db i rq o k s Hr Hk Hs Hlane Hother
                p Hp Hp0) as Hsent.
  eapply (get_after_put ServerJs.put db i rq _ k o);
    [apply serverjs_in_revisions|done|done|done|exact Hsent| |done].
  destruct (find_ref_Some _ _ _ Hr) as (o2 & Hk2 & -> & _).
  eapply replace_by_id_lookup.
  - by rewrite list_lookup_fmap, Hk.
  - rewrite cross_id. congruence.
Qed.

Lemma X23_serverjs_moved_card_is_read_back_witness :
  get_client
    (table (ServerJs.put board (Some 2) (Request (Some "complete") (Some (-3)))))
    (Some 2)
  = Outcome
      [Response 200 (OneClient (Some
         (Client 2 "Boehm and Sons" "" "complete" (-3))))]
      (table (ServerJs.put board (Some 2) (Request (Some "complete") (Some (-3)))))
      false.
Proof.
  apply (X23_serverjs_moved_card_is_read_back board (Some 2)
           (Request (Some "complete") (Some (-3)))
           (Client 2 "Boehm and Sons" "" "backlog" 2) 1 "complete" (-3)).
  - reflexivity.
  - reflexivity.
  - reflexivity.
  - reflexivity.
  - discriminate.
  - reflexivity.
  - discriminate.
  - exact board_ids_unique.
Defined.
